(** * fakku-downloader: a shallow embedding of [downloader.py]

    Python [str] values are modelled as [string]; the text files
    ([urls.txt], [done.txt], [fail.txt]) are modelled by their decoded
    contents; the directory tree below [ROOT_MANGA_DIR] is a finite map;
    the browser is a state record driven by an oracle that says what
    every navigation renders. *)

From Stdlib Require Import Ascii String ZArith Lia.
From stdpp Require Import base decidable option list strings pretty gmap.

(** ** Strings as the source uses them *)

Module Str.

Definition newline : ascii := "010"%char.

(** [s.startswith(p)], returning what follows the prefix. *)
Fixpoint strip_prefix (p s : string) : option string :=
  match p, s with
  | "", _ => Some s
  | String a p', String b s' =>
      if decide (a = b) then strip_prefix p' s' else None
  | String _ _, "" => None
  end.

(** [p in s] for strings. *)
Fixpoint contains (p s : string) : bool :=
  match strip_prefix p s with
  | Some _ => true
  | None =>
      match s with
      | "" => false
      | String _ s' => contains p s'
      end
  end.

(** The text left after a greedy run of characters other than a line
    feed: what a regular expression's [.*] leaves unread. *)
Fixpoint after_dots (s : string) : string :=
  match s with
  | "" => ""
  | String c s' => if decide (c = newline) then s else after_dots s'
  end.

(** No line feed in [s]. *)
Fixpoint one_line (s : string) : bool :=
  match s with
  | "" => true
  | String c s' => if decide (c = newline) then false else one_line s'
  end.

(** [s.replace("\n", "")]. *)
Fixpoint remove_newlines (s : string) : string :=
  match s with
  | "" => ""
  | String c s' =>
      if decide (c = newline) then remove_newlines s'
      else String c (remove_newlines s')
  end.

(** [c.isspace()], characters being code points below 256. *)
Definition isspace (c : ascii) : bool :=
  let n := nat_of_ascii c in
  (9 <=? n) && (n <=? 13) || (28 <=? n) && (n <=? 32)
  || (n =? 133) || (n =? 160).

(** [not s.strip()]: every character is white space. *)
Fixpoint blank (s : string) : bool :=
  match s with
  | "" => true
  | String c s' => isspace c && blank s'
  end.

(** [s.split(sep)] for a one-character separator: never empty. *)
Fixpoint split (sep : ascii) (s : string) : list string :=
  match s with
  | "" => [""]
  | String c s' =>
      if decide (c = sep) then "" :: split sep s'
      else match split sep s' with
           | [] => [String c ""]
           | w :: ws => String c w :: ws
           end
  end.

(** [s.split("/")[-1]]. *)
Definition last_segment (s : string) : string := default "" (last (split "/" s)).

(** [x in l] for a list of strings. *)
Definition mem (x : string) (l : list string) : bool := bool_decide (x ∈ l).

End Str.

(** ** Module constants *)

Definition BASE_URL : string := "https://www.fakku.net".
Definition LOGIN_URL : string := BASE_URL +:+ "/login/".
Definition FAIL_THRESHOLD : Z := 1000.

(** ** [sanitize_url] *)

(** One attempt of the pattern [\/read(\/page\/.+)?] at the head of [s]:
    [None] when it does not match there, otherwise the text that follows
    the match. The optional group is greedy: it is taken whenever
    [/page/] is followed by at least one character that is not a line
    feed, and then runs to the end of the line. *)
Definition match_read (s : string) : option string :=
  match Str.strip_prefix "/read" s with
  | None => None
  | Some r =>
      match Str.strip_prefix "/page/" r with
      | Some (String c r') =>
          if decide (c = Str.newline) then Some r else Some (Str.after_dots r')
      | _ => Some r
      end
  end.

(** [re.sub(r"\/read(\/page\/.+)?", "", s)]: scanning from the left, every
    match is dropped and the scan resumes behind it; a character at
    which the pattern does not match is copied. A match is never empty,
    so [fuel = length s] steps always suffice. *)
Fixpoint re_sub_read (fuel : nat) (s : string) : string :=
  match fuel with
  | 0 => s
  | S fuel' =>
      match match_read s with
      | Some r => re_sub_read fuel' r
      | None =>
          match s with
          | "" => ""
          | String c s' => String c (re_sub_read fuel' s')
          end
      end
  end.

Definition sanitize_url (url : string) : string :=
  re_sub_read (String.length url) url.


(** ** Text files *)

(** Iterating over a file opened in text mode: the lines of [s], each
    with its terminating line feed, a last line without one included.
    The contents are taken as decoded, line ends already translated. *)
Fixpoint file_lines (s : string) : list string :=
  match s with
  | "" => []
  | String c s' =>
      if decide (c = Str.newline) then String c "" :: file_lines s'
      else match file_lines s' with
           | [] => [String c ""]
           | l :: ls => String c l :: ls
           end
  end.

(** [[line.replace("\n", "") for line in f]] *)
Definition read_list (contents : string) : list string :=
  Str.remove_newlines <$> file_lines contents.

(** ** [FDownloader.__get_urls_list] *)

(** The three arguments are the contents of [urls_file], [done_file] and
    [fail_file]; the files are taken to exist. *)
Definition get_urls_list (urls_file done_file fail_file : string) : list string :=
  let done := read_list done_file in
  let failed := read_list fail_file in
  foldl
    (λ urls line,
       let clean_line := Str.remove_newlines line in
       let clean_line := sanitize_url clean_line in
       if negb (Str.mem clean_line done) && negb (Str.mem clean_line failed)
          && negb (Str.mem clean_line urls)
       then urls ++ [clean_line] else urls)
    [] (file_lines urls_file).

(** ** The world: pages, the browser, the disk *)

(** Width and height, of a window, a canvas or an image. *)
Definition size : Type := Z * Z.

(** What [BeautifulSoup(page_source, "html.parser")] finds. *)
Record soup := Soup {
  (** the [href] of every [<a>] that has one, in document order *)
  a_href : list string;
  (** for every [<div class="col-comic">], in document order, the
      [href] of its first [<a>]; [None] when the div has no [<a>], so
      that [div.find('a')] is [None]. A first [<a>] is taken to carry
      an [href]: a page on which one does not is outside the model *)
  col_comic : list (option string)
}.

(** What one navigation renders, as far as the program observes it. *)
Record page := Page {
  page_source : string;
  (** [//link[@rel='icon']] is present in the top document before the
      timeout *)
  icon_present : bool;
  (** the document has an [<iframe>] *)
  iframe_present : bool;
  (** [//div[@data-name='PageView']] is present in the frame before the
      timeout *)
  page_view_present : bool;
  (** number of elements of class [layer] in the frame *)
  layers : nat;
  (** the frame's [<canvas>] elements *)
  canvas : list size;
  (** [window.outerWidth - window.innerWidth] and the same for the
      height; [None] when evaluating the script faults *)
  decoration : option size;
  (** the image [save_screenshot] writes, by window size *)
  shot : size → size
}.

Definition without_layer (p : page) : page :=
  Page (page_source p) (icon_present p) (iframe_present p)
       (page_view_present p) (layers p - 1) (canvas p) (decoration p) (shot p).

Definition blank_page : page :=
  Page "" false false false 0 [] (Some (0, 0)%Z) (λ sz, sz).

Inductive exn :=
  | SystemExit
  | ValueError
  | TimeoutException
  | NoSuchElementException
  | JavascriptException
  | TypeError
  | FileNotFoundError
  | OSError.

Global Instance exn_eq_dec : EqDecision exn.
Proof. solve_decision. Defined.

(** The state the program reads and writes. [dirs] and [zips] are the
    entries of [root_manga_dir]: the item directories with their files
    (every file an image, by its size) and the archives with their
    members; names are compared literally. [history] lists every url
    the browser was sent to. [slept] counts sleeps in units of [wait];
    [stdout] is what was printed. *)
Record state := State {
  dirs : gmap string (gmap string size);
  zips : gmap string (list (string * size));
  urls_txt : string;
  done_txt : string;
  fail_txt : string;
  window : size;
  in_frame : bool;
  history : list string;
  shown : page;
  slept : nat;
  stdout : list string
}.

Definition set_dirs (f : gmap string (gmap string size) → gmap string (gmap string size))
    (s : state) : state :=
  State (f (dirs s)) (zips s) (urls_txt s) (done_txt s) (fail_txt s)
        (window s) (in_frame s) (history s) (shown s) (slept s) (stdout s).
Definition set_zips (f : gmap string (list (string * size)) → gmap string (list (string * size)))
    (s : state) : state :=
  State (dirs s) (f (zips s)) (urls_txt s) (done_txt s) (fail_txt s)
        (window s) (in_frame s) (history s) (shown s) (slept s) (stdout s).
Definition set_urls_txt (f : string → string) (s : state) : state :=
  State (dirs s) (zips s) (f (urls_txt s)) (done_txt s) (fail_txt s)
        (window s) (in_frame s) (history s) (shown s) (slept s) (stdout s).
Definition set_done_txt (f : string → string) (s : state) : state :=
  State (dirs s) (zips s) (urls_txt s) (f (done_txt s)) (fail_txt s)
        (window s) (in_frame s) (history s) (shown s) (slept s) (stdout s).
Definition set_fail_txt (f : string → string) (s : state) : state :=
  State (dirs s) (zips s) (urls_txt s) (done_txt s) (f (fail_txt s))
        (window s) (in_frame s) (history s) (shown s) (slept s) (stdout s).
Definition set_window (sz : size) (s : state) : state :=
  State (dirs s) (zips s) (urls_txt s) (done_txt s) (fail_txt s)
        sz (in_frame s) (history s) (shown s) (slept s) (stdout s).
Definition set_in_frame (b : bool) (s : state) : state :=
  State (dirs s) (zips s) (urls_txt s) (done_txt s) (fail_txt s)
        (window s) b (history s) (shown s) (slept s) (stdout s).
Definition navigate (url : string) (p : page) (s : state) : state :=
  State (dirs s) (zips s) (urls_txt s) (done_txt s) (fail_txt s)
        (window s) false (history s ++ [url]) p (slept s) (stdout s).
Definition set_shown (p : page) (s : state) : state :=
  State (dirs s) (zips s) (urls_txt s) (done_txt s) (fail_txt s)
        (window s) (in_frame s) (history s) p (slept s) (stdout s).
Definition add_slept (n : nat) (s : state) : state :=
  State (dirs s) (zips s) (urls_txt s) (done_txt s) (fail_txt s)
        (window s) (in_frame s) (history s) (shown s) (slept s + n) (stdout s).
Definition add_stdout (line : string) (s : state) : state :=
  State (dirs s) (zips s) (urls_txt s) (done_txt s) (fail_txt s)
        (window s) (in_frame s) (history s) (shown s) (slept s) (stdout s ++ [line]).

(** ** The monad of the program: state and exceptions *)

Inductive result (A : Type) :=
  | Ret (a : A) (s : state)
  | Raise (e : exn) (s : state).
Global Arguments Ret {A} a s.
Global Arguments Raise {A} e s.

Definition final {A} (r : result A) : state :=
  match r with Ret _ s => s | Raise _ s => s end.

Definition M (A : Type) : Type := state → result A.

Global Instance M_ret : MRet M := λ A a s, Ret a s.
Global Instance M_bind : MBind M := λ A B f m s,
  match m s with
  | Ret a s' => f a s'
  | Raise e s' => Raise e s'
  end.

Definition raise {A} (e : exn) : M A := λ s, Raise e s.
Definition gets {A} (f : state → A) : M A := λ s, Ret (f s) s.
Definition modify (f : state → state) : M unit := λ s, Ret () (f s).

(** [try: m except e: handler] *)
Definition try_except {A} (m : M A) (e : exn) (handler : M A) : M A := λ s,
  match m s with
  | Ret a s' => Ret a s'
  | Raise e' s' => if decide (e' = e) then handler s' else Raise e' s'
  end.

(** [for x in l: body], the body's local variables threaded as [acc]. *)
Fixpoint for_in {A L} (l : list A) (body : A → L → M L) (acc : L) : M L :=
  match l with
  | [] => mret acc
  | x :: l' => acc' ← body x acc; for_in l' body acc'
  end.

(** How an iteration of a loop with [continue] and [break] ends. *)
Inductive ctl := Continue | Break.

(** [for x in l: body] with [continue] and [break]; the result says
    whether the loop ran out ([Continue]) or was left by [break]. *)
Fixpoint for_in_break {A L} (l : list A) (body : A → L → M (ctl * L)) (acc : L)
    : M (ctl * L) :=
  match l with
  | [] => mret (Continue, acc)
  | x :: l' =>
      r ← body x acc;
      match r.1 with
      | Continue => for_in_break l' body r.2
      | Break => mret r
      end
  end.

(** ** The patterns that read page counts *)

(** The greedy run [\d+] at the head of [s] and what follows it. *)
Fixpoint span_digits (s : string) : string * string :=
  match s with
  | "" => ("", "")
  | String c s' =>
      match Ascii.is_nat c with
      | Some _ => let r := span_digits s' in (String c r.1, r.2)
      | None => ("", s)
      end
  end.

(** [int(d)] for a run of decimal digits. *)
Definition int_of_digits (d : string) : nat :=
  let fix go (acc : nat) (d : string) : nat :=
    match d with
    | "" => acc
    | String c d' => go (10 * acc + default 0 (Ascii.is_nat c)) d'
    end in
  go 0 d.

Definition dquote : ascii := "034"%char.

(** The pattern of [__get_page_count] tried at the head of [s]: a double
    quote, [>], the group [(\d+)], [ page], the group [(s?)] and
    [</div>]; the text of group 1 when it matches there. The digits are
    followed by a space and [s?] by [<], so no shorter run can match. *)
Definition match_page_count (s : string) : option string :=
  r ← Str.strip_prefix (String dquote ">") s;
  let d := span_digits r in
  if decide (d.1 = "") then None
  else
    r ← Str.strip_prefix " page" d.2;
    r ← match r with
        | String "s" r' => Some r'
        | _ => Some r
        end;
    _ ← Str.strip_prefix "</div>" r;
    Some d.1.

(** [re.search] of that pattern: the leftmost match. *)
Fixpoint search_page_count (s : string) : option string :=
  match match_page_count s with
  | Some d => Some d
  | None =>
      match s with
      | "" => None
      | String _ s' => search_page_count s'
      end
  end.

(** [re.search(r"\/page\/(\d+)", s)]: group 1 of the leftmost match. *)
Fixpoint search_page_link (s : string) : option string :=
  let here :=
    r ← Str.strip_prefix "/page/" s;
    let d := span_digits r in
    if decide (d.1 = "") then None else Some d.1 in
  match here with
  | Some d => Some d
  | None =>
      match s with
      | "" => None
      | String _ s' => search_page_link s'
      end
  end.

(** [f"{page_num}.png"] *)
Definition png (page_num : nat) : string := pretty page_num +:+ ".png".

Definition nl : string := String Str.newline "".

(** ** [program_exit] *)

Definition print (line : string) : M unit := modify (add_stdout line).

Definition program_exit {A} : M A :=
  print "Program exit.";; raise SystemExit.

(** ** The file system and browser calls the program makes *)

(** [os.path.exists(folder)] for an item directory. *)
Definition path_exists (folder : string) : M bool :=
  gets (λ s, bool_decide (is_Some (dirs s !! folder))).

Definition mkdir (folder : string) : M unit :=
  modify (set_dirs (λ d, <[folder := ∅]> d)).

(** [os.path.isfile] and [os.path.exists] of a file in an item
    directory. *)
Definition isfile (folder file : string) : M bool :=
  gets (λ s, bool_decide (is_Some (dirs s !! folder ≫= (.!! file)))).

Definition os_remove (folder file : string) : M unit :=
  modify (set_dirs (λ d, alter (delete file) folder d)).

(** [os.rmdir] of an item directory, an entry of the root directory:
    only an empty directory can be removed. *)
Definition os_rmdir (folder : string) : M unit := λ s,
  match dirs s !! folder with
  | None => Raise FileNotFoundError s
  | Some files =>
      if decide (files = ∅) then Ret () (set_dirs (delete folder) s)
      else Raise OSError s
  end.

(** [Image.open(file)], as far as width and height go. *)
Definition image_open (folder file : string) : M size := λ s,
  match dirs s !! folder ≫= (.!! file) with
  | Some img => Ret img s
  | None => Raise FileNotFoundError s
  end.

(** [browser.save_screenshot(file)]: the driver reports a file it cannot
    write by its return value, which the program does not read. *)
Definition write_screenshot (folder file : string) (s : state) : state :=
  match dirs s !! folder with
  | Some files =>
      set_dirs (λ d, <[folder := <[file := shot (shown s) (window s)]> files]> d) s
  | None => s
  end.

Definition save_screenshot (folder file : string) : M unit :=
  modify (write_screenshot folder file).

Definition set_window_size (sz : size) : M unit := modify (set_window sz).

Definition sleep (n : nat) : M unit := modify (add_slept n).

(** [document.getElementsByTagName('canvas')[i].width] and [.height]:
    an index outside the collection gives [undefined], whose property
    cannot be read. *)
Definition canvas_at (p : page) (i : Z) : option size :=
  if decide (0 ≤ i)%Z then canvas p !! Z.to_nat i else None.

Definition js_canvas_width (i : Z) : M Z := λ s,
  match canvas_at (shown s) i with
  | Some c => Ret c.1 s
  | None => Raise JavascriptException s
  end.

Definition js_canvas_height (i : Z) : M Z := λ s,
  match canvas_at (shown s) i with
  | Some c => Ret c.2 s
  | None => Raise JavascriptException s
  end.

(** [document.getElementsByClassName('layer')[i].remove()] *)
Definition js_remove_layer (i : Z) : M unit := λ s,
  if decide (0 ≤ i < Z.of_nat (layers (shown s)))%Z
  then Ret () (set_shown (without_layer (shown s)) s)
  else Raise JavascriptException s.

(** The two scripts of [set_viewport_size]. *)
Definition js_window_metrics : M size := λ s,
  match decoration (shown s) with
  | Some d => Ret d s
  | None => Raise JavascriptException s
  end.

Definition js_viewport_window (width height : Z) : M size := λ s,
  match decoration (shown s) with
  | Some d => Ret (d.1 + width, d.2 + height)%Z s
  | None => Raise JavascriptException s
  end.

(** ** [class FDownloader] *)

(** The attributes of [self] that the modelled methods read. [wait] is
    the unit of [slept]; [timeout] is inside the [_present] fields of a
    page. *)
Record config := Config {
  default_display : size;
  max_ : option Z;
  pack : bool;
  viewport : bool
}.

Definition iframe_error : string :=
  String Str.newline "Error: Couldn't find iframe. Bugger.".
Definition timeout_error : string :=
  String Str.newline
    "Error: timed out waiting for page to load. +                 You can try increase param -t for more delaying.".
Definition js_error : string :=
  String Str.newline
    "Some error with JS. Page source are note ready. You can try increase argument -t".

Section FDownloader.

Context (self : config).
(** What the browser renders at its [n]-th navigation, by url. *)
Context (web : nat → string → page).
(** The html parser. *)
Context (bs : string → soup).

Definition browser_get (url : string) : M unit :=
  modify (λ s, navigate url (web (length (history s)) url) s).

(** [browser.switch_to.frame(browser.find_element_by_tag_name("iframe"))] *)
Definition switch_to_iframe : M unit := λ s,
  if iframe_present (shown s) then Ret () (set_in_frame true s)
  else Raise NoSuchElementException s.

Definition switch_to_default_content : M unit := modify (set_in_frame false).

(** [WebDriverWait(browser, timeout).until(presence_of_element_located(..))] *)
Definition wait_until (present : page → bool) : M unit := λ s,
  if present (shown s) then Ret () s else Raise TimeoutException s.

Definition waiting_loading_page (is_reader_page should_add_delay : bool) : M unit :=
  cfg ←
    (if negb is_reader_page then
       sleep 1;; mret (icon_present, false)
     else if should_add_delay then
       sleep 3;; mret (page_view_present, true)
     else
       sleep 1;; mret (page_view_present, true));
  let elem_xpath : page → bool := cfg.1 in
  let iframe : bool := cfg.2 in
  try_except
    ((if iframe then
        try_except switch_to_iframe
          NoSuchElementException
          (print iframe_error;; program_exit)
      else switch_to_default_content);;
     wait_until elem_xpath)
    TimeoutException
    (print timeout_error;; program_exit).

Definition set_viewport_size (width height : Z) : M unit :=
  test ← js_window_metrics;
  window_size ← js_viewport_window width height;
  set_window_size window_size.

(** [browser.close()] followed by [init_browser(headless=True)]: a
    new browser, sent to the login page for its cookies and given the
    default window. *)
Definition reinit_browser : M unit :=
  modify (λ s, set_in_frame false (set_shown blank_page s));;
  browser_get LOGIN_URL;;
  set_window_size (default_display self).

(** [add_done] and [add_failed] append one line to the decoded text of
    their file. The identifier is taken to have no carriage return in
    it: text mode would read that back as a line end. *)
Definition add_done (url : string) : M unit :=
  modify (set_done_txt (λ t, t +:+ url +:+ nl)).

Definition add_failed (url : string) : M unit :=
  print ("Error: Failed " +:+ url);;
  modify (set_fail_txt (λ t, t +:+ url +:+ nl)).

Definition remove_manga_folder (manga_folder : string) (page_count : nat) : M unit :=
  for_in (seq 1 page_count)
    (λ page_num _,
       let file := png page_num in
       there ← isfile manga_folder file;
       if there : bool then os_remove manga_folder file else mret ())
    ();;
  os_rmdir manga_folder.

Definition get_page_count (page_source : string) : M nat :=
  match search_page_count page_source with
  | Some d => mret (int_of_digits d)
  | None => raise ValueError
  end.

(** [try: x = m except e: ...], the handler run by the caller on
    [None]. *)
Definition attempt {A} (m : M A) (e : exn) : M (option A) := λ s,
  match m s with
  | Ret a s' => Ret (Some a) s'
  | Raise e' s' => if decide (e' = e) then Ret None s' else Raise e' s'
  end.

(** The body of the loop over [page_num]; the local
    [delay_before_fetching] goes in and comes out. *)
Definition fetch_page (url manga_folder : string) (page_num : nat)
    (delay_before_fetching : bool) : M bool :=
  let destination_file := png page_num in
  there ← isfile manga_folder destination_file;
  if there : bool then mret true
  else
    browser_get (url +:+ "/read/page/" +:+ pretty page_num);;
    waiting_loading_page true delay_before_fetching;;
    n ← gets (λ s, Z.of_nat (layers (shown s)));
    try_except
      (width ← js_canvas_width (n - 2);
       height ← js_canvas_height (n - 2);
       if viewport self then set_viewport_size width height
       else set_window_size (width, height))
      JavascriptException
      (print js_error);;
    js_remove_layer (n - 1);;
    save_screenshot manga_folder destination_file;;
    mret false.

(** The body of the loop that checks every page file for size. *)
Definition check_page (manga_folder : string) (page_num : nat) (failed : bool) : M bool :=
  img ← image_open manga_folder (png page_num);
  mret (if bool_decide (img.1 < FAIL_THRESHOLD)%Z
           || bool_decide (img.2 < FAIL_THRESHOLD)%Z
        then true else failed).

Definition zip_open (zipname : string) : M unit :=
  modify (set_zips (λ z, <[zipname := []]> z)).

Definition zip_write (zipname folder file : string) : M unit := λ s,
  match dirs s !! folder ≫= (.!! file) with
  | Some img => Ret () (set_zips (alter (λ members, members ++ [(file, img)]) zipname) s)
  | None => Raise FileNotFoundError s
  end.

Definition zip_exists (zipname : string) : M bool :=
  gets (λ s, bool_decide (is_Some (zips s !! zipname))).

(** The loop over [page_num] that fetches and captures. *)
Definition fetch_pages (url manga_folder : string) (page_count : nat) : M bool :=
  for_in (seq 1 page_count) (fetch_page url manga_folder) true.

(** The loop that checks every page file for size. *)
Definition check_pages (manga_folder : string) (page_count : nat) : M bool :=
  for_in (seq 1 page_count) (check_page manga_folder) false.

(** What [load_all] does with an item once [failed] is known. The
    item directory and the archive are the entries [manga_name] and
    [manga_name.cbz] of the root directory. *)
Definition record_item (url manga_name : string) (page_count : nat)
    (urls_processed : Z) (failed : bool) : M (ctl * Z) :=
  let manga_folder := manga_name in
  if failed then
    add_failed url;;
    remove_manga_folder manga_folder page_count;;
    reinit_browser;;
    mret (Continue, urls_processed)
  else
    (if pack self then
       let zipname := manga_name +:+ ".cbz" in
       zip_open zipname;;
       for_in (seq 1 page_count)
         (λ page_num _, zip_write zipname manga_folder (png page_num)) ();;
       zipped ← zip_exists zipname;
       if zipped : bool then remove_manga_folder manga_folder page_count
       else mret ()
     else mret ());;
    add_done url;;
    let urls_processed := (urls_processed + 1)%Z in
    match max_ self with
    | Some m =>
        if bool_decide (m ≤ urls_processed)%Z
        then mret (Break, urls_processed)
        else mret (Continue, urls_processed)
    | None => mret (Continue, urls_processed)
    end.

(** The validation step of an item and what follows it. *)
Definition validate_item (url manga_name : string) (page_count : nat)
    (urls_processed : Z) : M (ctl * Z) :=
  failed ← check_pages manga_name page_count;
  record_item url manga_name page_count urls_processed failed.

(** The body of the loop of [load_all] over [self.urls]. The item
    directory is the entry of the root directory named by the last
    segment of the identifier. An identifier whose last segment is
    empty, [.] or [..] has the root directory or its parent for its
    directory: what the program does on disk for such an identifier is
    outside the model. *)
Definition load_url (url : string) (urls_processed : Z) : M (ctl * Z) :=
  if Str.blank url then mret (Continue, urls_processed)
  else
    let url := sanitize_url url in
    browser_get url;;
    waiting_loading_page false false;;
    source ← gets (λ s, page_source (shown s));
    counted ← attempt (get_page_count source) ValueError;
    match counted with
    | None => add_failed url;; mret (Continue, urls_processed)
    | Some page_count =>
        let manga_name := Str.last_segment url in
        let manga_folder := manga_name in
        there ← path_exists manga_folder;
        (if there : bool then mret () else mkdir manga_folder);;
        print ("Downloading " +:+ String dquote manga_name
               +:+ String dquote " manga.");;
        fetch_pages url manga_folder page_count;;
        validate_item url manga_name page_count urls_processed
    end.

(** [load_all]; [urls] is [self.urls]. The directory
    [root_manga_dir], made here when missing, is the one [dirs] and
    [zips] list. *)
Definition load_all (urls : list string) : M (ctl * Z) :=
  set_window_size (default_display self);;
  for_in_break urls load_url 0%Z.

(** [__get_page_count_in_collection]; nothing in its [try] block
    raises here, the links kept being those the pattern matches. *)
Definition get_page_count_in_collection (page_source : string) : nat :=
  let page_links :=
    filter (λ href, is_Some (search_page_link href)) (a_href (bs page_source)) in
  if bool_decide (0 < length page_links)
  then max_list ((λ href, int_of_digits (default "" (search_page_link href)))
                   <$> page_links)
  else 1.

Definition write_url (line : string) : M unit :=
  modify (set_urls_txt (λ t, t +:+ line)).

Definition load_urls_from_collection (collection_url : string) : M unit :=
  browser_get collection_url;;
  waiting_loading_page false false;;
  source ← gets (λ s, page_source (shown s));
  let page_count := get_page_count_in_collection source in
  for_in (seq 1 page_count)
    (λ page_num _,
       (if bool_decide (page_num ≠ 1) then
          browser_get (collection_url +:+ "/page/" +:+ pretty page_num);;
          waiting_loading_page false false
        else mret ());;
       source ← gets (λ s, page_source (shown s));
       for_in (col_comic (bs source))
         (λ div _,
            match div with
            | Some href => write_url (BASE_URL +:+ href +:+ nl)
            | None => raise TypeError
            end)
         ())
    ().

End FDownloader.

(** ** Notions the statements use *)

(** One line of [urls_file] as it is queued. *)
Definition clean_line (line : string) : string :=
  sanitize_url (Str.remove_newlines line).

(** From a state in [P], [m] returns in [Q] or raises in [E]. *)
Definition hoare {A} (P : state → Prop) (m : M A)
    (Q : A → state → Prop) (E : exn → state → Prop) : Prop :=
  ∀ s, P s →
    match m s with
    | Ret a s' => Q a s'
    | Raise e s' => E e s'
    end.

(** [m] keeps [I], however it ends. *)
Definition keeps {A} (I : state → Prop) (m : M A) : Prop :=
  hoare I m (λ _, I) (λ _, I).

(** A property of the completed and failed lists alone. *)
Definition on_lists (J : string → string → Prop) (s : state) : Prop :=
  J (done_txt s) (fail_txt s).

(** [m] leaves the part [proj] of the state as it was, however it
    ends. *)
Definition unchanged {A B} (proj : state → B) (m : M A) : Prop :=
  ∀ s, proj (final (m s)) = proj s.

(** The completed and the failed list. *)
Definition lists (s : state) : string * string := (done_txt s, fail_txt s).

(** How a run of [m] ended. *)
Definition raised {A} (r : result A) : option exn :=
  match r with Ret _ _ => None | Raise e _ => Some e end.

Definition returned {A} (r : result A) : option A :=
  match r with Ret a _ => Some a | Raise _ _ => None end.

(** Whether a page passes the wait of [waiting_loading_page]: for a
    reader page the frame and its page view, else the icon link. *)
Definition ready (is_reader_page : bool) (p : page) : bool :=
  if is_reader_page then iframe_present p && page_view_present p
  else icon_present p.

(** The url of a page in the reader. *)
Definition reader_url (url : string) (page_num : nat) : string :=
  url +:+ "/read/page/" +:+ pretty page_num.

(** The image file of a page in an item directory, if there. *)
Definition page_file (s : state) (folder : string) (page_num : nat) : option size :=
  dirs s !! folder ≫= (.!! png page_num).

(** The test of the validation loop on one image. *)
Definition undersized (img : size) : bool :=
  bool_decide (img.1 < FAIL_THRESHOLD)%Z || bool_decide (img.2 < FAIL_THRESHOLD)%Z.

(** Some page file among [1..page_count] is undersized. *)
Definition some_undersized (files : gmap string size) (page_count : nat) : bool :=
  existsb (λ page_num, from_option undersized false (files !! png page_num))
          (seq 1 page_count).

(** The members [zip_write] adds for the pages [1..page_count]. *)
Definition zip_members (files : gmap string size) (page_count : nat)
    : list (string * size) :=
  omap (λ page_num, (λ img, (png page_num, img)) <$> files !! png page_num)
       (seq 1 page_count).

(** What appending the identifiers [ids], one [add_done] or
    [add_failed] each, adds to a list file. *)
Definition lines (ids : list string) : string :=
  foldr (λ id rest, id +:+ nl +:+ rest) "" ids.

(** The page numbers the links of a listing refer to. *)
Definition page_refs (sp : soup) : list nat :=
  omap (λ href, int_of_digits <$> search_page_link href) (a_href sp).

(** The state after the index page of an item was loaded and waited
    for. *)
Definition index_shown (web : nat → string → page) (url : string) (s : state) : state :=
  set_in_frame false (add_slept 1 (navigate url (web (length (history s)) url) s)).

(** The state in which the page loop of an item starts: the index page
    shown, the item directory there, the item announced. *)
Definition item_opened (web : nat → string → page) (url : string) (s : state) : state :=
  let s1 := index_shown web url s in
  let manga_name := Str.last_segment url in
  add_stdout
    ("Downloading " +:+ String dquote manga_name +:+ String dquote " manga.")
    (if bool_decide (is_Some (dirs s1 !! manga_name)) then s1
     else set_dirs (λ d, <[manga_name := ∅]> d) s1).

(** The window size the resizing step of a capture sets, when no script
    faults: the canvas two below the number of layers, plus the window
    decoration in viewport mode. *)
Definition resize_target (viewport : bool) (p : page) : option size :=
  c ← canvas_at p (Z.of_nat (layers p) - 2);
  if viewport then d ← decoration p; Some (d.1 + c.1, d.2 + c.2)%Z
  else Some c.

(** The state after the resizing step of a capture. *)
Definition resized (viewport : bool) (s : state) : state :=
  match resize_target viewport (shown s) with
  | Some sz => set_window sz s
  | None => add_stdout js_error s
  end.

(** A directory after the files of the pages [pages] were removed. *)
Definition without_pages (files : gmap string size) (pages : list nat)
    : gmap string size :=
  foldl (λ files page_num, delete (png page_num) files) files pages.

(** Every page of [1..page_count] has its file in [files]. *)
Definition all_pages (files : gmap string size) (page_count : nat) : Prop :=
  ∀ page_num, 1 ≤ page_num ≤ page_count → is_Some (files !! png page_num).

(** [files] holds nothing but files of the pages [1..page_count]. *)
Definition only_pages (files : gmap string size) (page_count : nat) : Prop :=
  ∀ file, is_Some (files !! file) →
    ∃ page_num, 1 ≤ page_num ≤ page_count ∧ file = png page_num.

(** Whether the main loop stops after an item that made
    [urls_processed] completed ones. *)
Definition cap_reached (self : config) (urls_processed : Z) : ctl :=
  match max_ self with
  | Some m => if bool_decide (m ≤ urls_processed)%Z then Break else Continue
  | None => Continue
  end.

(** [m] never ends the program by [exit()]. *)
Definition never_exits {A} (m : M A) : Prop :=
  ∀ s, raised (m s) ≠ Some SystemExit.

(** How [load_all] can leave an item whose pages were fetched: written
    to the completed list (and counted), written to the failed list, or
    stopped by an exception other than [SystemExit], after the item was
    written to the failed list or before anything was written. *)
Definition recorded (self : config) (url : string) (k : Z) (s : state)
    (r : result (ctl * Z)) : Prop :=
  (∃ s', r = Ret (cap_reached self (k + 1), (k + 1)%Z) s' ∧
         lists s' = (done_txt s +:+ url +:+ nl, fail_txt s)) ∨
  (∃ s', r = Ret (Continue, k) s' ∧
         lists s' = (done_txt s, fail_txt s +:+ url +:+ nl)) ∨
  (∃ e s', r = Raise e s' ∧ e ≠ SystemExit ∧
           (lists s' = lists s ∨
            lists s' = (done_txt s, fail_txt s +:+ url +:+ nl))).

(** ** A small site to run the program on *)

(** An index page announcing [n] pages. *)
Definition index_page (n : string) : page :=
  Page (String dquote ">" +:+ n +:+ " pages</div>") true false false 0 []
       (Some (0, 0)%Z) (λ sz, sz).

(** A reader page with so many layers and these canvases; the
    screenshot has the size of the window. *)
Definition reader_page (layers : nat) (canvas : list size) : page :=
  Page "" true true true layers canvas (Some (0, 0)%Z) (λ sz, sz).

(** A page that loaded without what the program looks for. *)
Definition bare_page (icon : bool) : page :=
  Page "<html></html>" icon false false 0 [] (Some (0, 0)%Z) (λ sz, sz).

Definition plain_config : config := Config (1440, 2560)%Z None false false.

Definition fresh_state : state :=
  State ∅ ∅ "" "" "" (0, 0)%Z false [] blank_page 0 [].

(** A site with one item, [https://site/x], of [n] pages, every reader
    page as given. *)
Definition one_item_site (n : string) (reader : page) : nat → string → page :=
  λ _ url, if decide (url = "https://site/x") then index_page n else reader.

(** The disk with the directory of item [x] holding [files]. *)
Definition state_with_x (files : gmap string size) : state :=
  State {[ "x" := files ]} ∅ "" "" "" (1440, 2560)%Z false [] blank_page 0 [].

(** Two page files, the second one undersized. *)
Definition two_pages : gmap string size :=
  <[png 1 := (1200, 1800)%Z]> (<[png 2 := (900, 1800)%Z]> ∅).

(** A file that is no page of the item. *)
Definition stray_file : gmap string size := {[ "notes.txt" := (1, 1)%Z ]}.

Definition packing_config : config := Config (1440, 2560)%Z None true false.

(** A site with two items: [a] has one page, [b] shows no page count. *)
Definition two_item_site : nat → string → page :=
  λ _ url,
    if decide (url = "https://site/a") then index_page "1"
    else if decide (url = "https://site/b") then bare_page true
    else reader_page 2 [(1200, 1800)%Z].

(** Item [x] with its first page on disk, undersized. *)
Definition resumed_state : state :=
  state_with_x (<[png 1 := (900, 1800)%Z]> ∅).

(** A collection [https://site/c] of three listing pages, told apart by
    their sources. *)
Definition listing (j : string) : page :=
  Page ("listing " +:+ j) true false false 0 [] (Some (0, 0)%Z) (λ sz, sz).

Definition listing_site : nat → string → page :=
  λ _ url,
    if decide (url = "https://site/c") then listing "1"
    else if decide (url = "https://site/c/page/2") then listing "2"
    else listing "3".

(** What the parser finds in the three sources: the first page links to
    the pages 2, 3 and 1, every page holds four items; with [again] the
    second page lists item [d] of the first page once more. *)
Definition listing_soup (again : bool) : string → soup :=
  λ source,
    if decide (source = "listing 1") then
      Soup ["/about"; "/c/page/2"; "/c/page/3"; "/c/page/1"]
           [Some "/hentai/a"; Some "/hentai/b"; Some "/hentai/c"; Some "/hentai/d"]
    else if decide (source = "listing 2") then
      Soup ["/c/page/1"]
           [Some (if again then "/hentai/d" else "/hentai/e"); Some "/hentai/f";
            Some "/hentai/g"; Some "/hentai/h"]
    else
      Soup ["/c/page/1"]
           [Some "/hentai/i"; Some "/hentai/j"; Some "/hentai/k"; Some "/hentai/l"].

(** A configuration with an item cap. *)
Definition capped_config (m : Z) : config := Config (1440, 2560)%Z (Some m) false false.

(** A fresh disk and browser with [urls] requested. *)
Definition requested_state (urls : string) : state :=
  State ∅ ∅ urls "" "" (0, 0)%Z false [] blank_page 0 [].

(** The text in front of a page-count marker: an opening tag up to the
    double quote that ends its attribute. *)
Definition marker_context : string :=
  Eval cbv in "<div class=" +:+ String dquote "t".

(** The item entries of the three listing pages, the first entry of the
    second page being the last of the first page once more. *)
Definition listing_items (j : nat) : list string :=
  match j with
  | 1 => ["/hentai/a"; "/hentai/b"; "/hentai/c"; "/hentai/d"]
  | 2 => ["/hentai/d"; "/hentai/f"; "/hentai/g"; "/hentai/h"]
  | _ => ["/hentai/i"; "/hentai/j"; "/hentai/k"; "/hentai/l"]
  end.

(** A listing of one page whose second entry has no link. *)
Definition broken_soup : string → soup :=
  λ _, Soup [] [Some "/hentai/a"; None; Some "/hentai/b"].

Definition viewport_config : config := Config (1440, 2560)%Z None false true.

(** A reader page in a window whose decoration takes 16 by 88 pixels;
    the screenshot shows the viewport. *)
Definition framed_reader : page :=
  Page "" true true true 2 [(1200, 1800)%Z] (Some (16, 88)%Z)
       (λ sz, (sz.1 - 16, sz.2 - 88)%Z).

(** ** Notions of the further statements *)

(** A list file whose last line, if there is one, ends with a line
    feed: what [add_done] and [add_failed] leave behind. *)
Fixpoint terminated (t : string) : bool :=
  match t with
  | "" => true
  | String c t' =>
      match t' with
      | "" => bool_decide (c = Str.newline)
      | _ => terminated t'
      end
  end.

(** The loop inside [int_of_digits], from a value read so far. *)
Fixpoint digits_from (acc : nat) (d : string) : nat :=
  match d with
  | "" => acc
  | String c d' => digits_from (10 * acc + default 0 (Ascii.is_nat c)) d'
  end.

(** The text the pattern of [__get_page_count] matches for the number
    [n], written in decimal, with [ page] or [ pages]. *)
Definition page_marker (n : nat) (plural : bool) : string :=
  String dquote ">" +:+ pretty n +:+ " page" +:+ (if plural then "s" else "")
    +:+ "</div>".

(** The characters of a string. *)
Definition chars (s : string) : list ascii := list_ascii_of_string s.

(** The work queue an [FDownloader] made in state [s] starts with:
    [__init__] sets [self.urls] from the three files as they are then. *)
Definition initial_queue (s : state) : list string :=
  get_urls_list (urls_txt s) (done_txt s) (fail_txt s).

(** The url of a page of a collection's listing. *)
Definition listing_url (collection_url : string) (page_num : nat) : string :=
  collection_url +:+ "/page/" +:+ pretty page_num.

(** The requested list is [u]; with packaging off the archives are
    [z]. *)
Definition files_kept (self : config) (u : string)
    (z : gmap string (list (string * size))) (s : state) : Prop :=
  urls_txt s = u ∧ (pack self = false → zips s = z).

(** A name that is an entry of [root_manga_dir]: joined to the root it
    names neither the root itself (the empty name and [.]), nor its
    parent ([..]), nor a path below another entry. For such a name the
    directory under that key of [dirs] is the directory the program
    works on. *)
Definition entry_name (name : string) : Prop :=
  name ≠ "" ∧ name ≠ "." ∧ name ≠ ".." ∧ Str.contains "/" name = false.

(** A string that is one line of a text file however it is written and
    read: it has no line feed in it and no carriage return, which a file
    read in text mode gives back as a line end. *)
Definition plain_line (s : string) : bool :=
  Str.one_line s && negb (Str.contains (String "013"%char "") s).

(** * Properties *)

(** ** Strings *)


Lemma app_cons c (s t : string) : String c s +:+ t = String c (s +:+ t).
Proof. reflexivity. Qed.

Lemma app_empty_l (t : string) : "" +:+ t = t.
Proof. reflexivity. Qed.

Lemma app_empty_r (s : string) : s +:+ "" = s.
Proof. induction s; rewrite ?app_cons; [done|congruence]. Qed.

Lemma app_assoc (s t u : string) : (s +:+ t) +:+ u = s +:+ t +:+ u.
Proof. induction s; rewrite ?app_cons; [done|congruence]. Qed.

Lemma app_length (s t : string) :
  String.length (s +:+ t) = String.length s + String.length t.
Proof. induction s; rewrite ?app_cons; simpl; [done|congruence]. Qed.

Lemma strip_prefix_app p s r : Str.strip_prefix p s = Some r → s = p +:+ r.
Proof.
  revert s; induction p as [|a p IH]; intros [|b s] H; simpl in H; simplify_eq; try done.
  case_decide; simplify_eq. by rewrite app_cons, <- (IH _ H).
Qed.

Lemma strip_prefix_app_eq p r : Str.strip_prefix p (p +:+ r) = Some r.
Proof.
  induction p as [|a p IH]; [by destruct r|].
  rewrite app_cons. cbn. by rewrite decide_True.
Qed.

Local Arguments Str.strip_prefix : simpl never.
Local Arguments Str.contains : simpl never.
Local Arguments match_read : simpl never.
Local Arguments sanitize_url : simpl never.

Lemma after_dots_length s : String.length (Str.after_dots s) ≤ String.length s.
Proof. induction s as [|c s IH]; simpl; [lia|]. case_decide; simpl; lia. Qed.

Lemma match_read_length s r :
  match_read s = Some r → String.length r + 5 ≤ String.length s.
Proof.
  unfold match_read. destruct (Str.strip_prefix "/read" s) as [t|] eqn:Ht; [|done].
  apply strip_prefix_app in Ht as ->. rewrite app_length. simpl.
  destruct (Str.strip_prefix "/page/" t) as [[|c u]|] eqn:Hu;
    [intros [= <-]; lia| |intros [= <-]; lia].
  apply strip_prefix_app in Hu as ->. rewrite app_length.
  case_decide; intros [= <-]; [rewrite app_length; simpl; lia|].
  pose proof (after_dots_length u). simpl. lia.
Qed.

Lemma re_sub_read_fuel fuel s :
  String.length s ≤ fuel → re_sub_read fuel s = re_sub_read (String.length s) s.
Proof.
  revert s. induction (lt_wf fuel) as [fuel _ IH]. intros s Hs.
  destruct fuel as [|fuel]; [by destruct s; simpl in *; [|lia]|].
  destruct s as [|c s]; [done|]. simpl String.length. simpl re_sub_read.
  destruct (match_read (String c s)) as [r|] eqn:Hr.
  - apply match_read_length in Hr. simpl in Hr.
    rewrite (IH fuel), (IH (String.length s)); simpl in *; try lia. done.
  - f_equal. apply IH; simpl in *; lia.
Qed.

(** The equation [re.sub] obeys, free of fuel. *)
Lemma sanitize_url_unfold s :
  sanitize_url s =
    match match_read s with
    | Some r => sanitize_url r
    | None =>
        match s with
        | "" => ""
        | String c s' => String c (sanitize_url s')
        end
    end.
Proof.
  unfold sanitize_url. destruct s as [|c s]; [done|].
  simpl String.length. simpl re_sub_read.
  destruct (match_read (String c s)) as [r|] eqn:Hr; [|done].
  apply match_read_length in Hr. simpl in Hr. apply re_sub_read_fuel. lia.
Qed.



Lemma sanitize_url_length s : String.length (sanitize_url s) ≤ String.length s.
Proof.
  cut (∀ n s, String.length s ≤ n → String.length (sanitize_url s) ≤ String.length s);
    [by eauto|].
  clear s. induction n as [|n IH]; intros s Hn; rewrite sanitize_url_unfold.
  - destruct s; [|simpl in Hn; lia].
    destruct (match_read "") as [r|] eqn:Hr; [|done].
    apply match_read_length in Hr. simpl in Hr. lia.
  - destruct (match_read s) as [r|] eqn:Hr.
    + apply match_read_length in Hr. etrans; [apply IH|]; lia.
    + destruct s as [|c s]; simpl in *; [lia|]. apply le_n_S, IH. lia.
Qed.

Lemma match_read_contains s r : match_read s = Some r → Str.contains "/read" s = true.
Proof.
  unfold match_read. destruct (Str.strip_prefix "/read" s) eqn:Hs; [intros _|done].
  destruct s; unfold Str.contains; fold Str.contains; by rewrite Hs.
Qed.

Lemma contains_cons p c s :
  Str.contains p (String c s) =
    match Str.strip_prefix p (String c s) with
    | Some _ => true
    | None => Str.contains p s
    end.
Proof. reflexivity. Qed.

Lemma match_read_None s :
  match_read s = None ↔ Str.strip_prefix "/read" s = None.
Proof.
  unfold match_read. destruct (Str.strip_prefix "/read" s) as [t|]; [|done].
  split; [|done]. by destruct (Str.strip_prefix "/page/" t) as [[|c u]|]; [| case_decide |].
Qed.

(** A string without [/read] is left as it is. *)
Lemma sanitize_url_fixed s : Str.contains "/read" s = false → sanitize_url s = s.
Proof.
  induction s as [|c s IH]; [done|].
  rewrite contains_cons, sanitize_url_unfold.
  destruct (Str.strip_prefix "/read" (String c s)) eqn:Hp; [done|].
  apply match_read_None in Hp as ->. intros ?. f_equal. auto.
Qed.

(** A string with [/read] in it gets shorter. *)
Lemma sanitize_url_shrinks s :
  Str.contains "/read" s = true → String.length (sanitize_url s) < String.length s.
Proof.
  induction s as [|c s IH]; [done|].
  rewrite contains_cons, sanitize_url_unfold.
  destruct (match_read (String c s)) as [r|] eqn:Hr.
  - intros _. apply match_read_length in Hr. pose proof (sanitize_url_length r). lia.
  - apply match_read_None in Hr as ->. intros ?. simpl. apply ->Nat.succ_lt_mono. auto.
Qed.

Lemma sanitize_url_fixed_iff s :
  sanitize_url s = s ↔ Str.contains "/read" s = false.
Proof.
  split; [|apply sanitize_url_fixed].
  intros Hs. destruct (Str.contains "/read" s) eqn:Hc; [|done].
  apply sanitize_url_shrinks in Hc. rewrite Hs in Hc. lia.
Qed.

Lemma strip_prefix_cons a p b s :
  Str.strip_prefix (String a p) (String b s) =
    if decide (a = b) then Str.strip_prefix p s else None.
Proof. reflexivity. Qed.

(** No match of [/read] starts inside a text without one and ends in a
    [/read] put behind it: the only [/] of [/read] is its first
    character. *)
Lemma no_match_across c p x :
  Str.contains "/read" (String c p) = false →
  Str.strip_prefix "/read" (String c p +:+ "/read" +:+ x) = None.
Proof.
  rewrite contains_cons.
  destruct (Str.strip_prefix "/read" (String c p)) eqn:Hp; [done|]. intros _.
  revert Hp.
  destruct p as [|c2 [|c3 [|c4 [|c5 p]]]];
    rewrite ?app_cons, ?app_empty_l, ?strip_prefix_cons;
    repeat (case_decide; simplify_eq; try done).
Qed.

Lemma sanitize_url_app p x :
  Str.contains "/read" p = false →
  sanitize_url (p +:+ "/read" +:+ x) = p +:+ sanitize_url ("/read" +:+ x).
Proof.
  induction p as [|c p IH]; [done|]. intros Hp.
  rewrite sanitize_url_unfold.
  rewrite (proj2 (match_read_None _) (no_match_across c p x Hp)).
  rewrite !app_cons. f_equal. apply IH.
  rewrite contains_cons in Hp. by destruct (Str.strip_prefix _ _).
Qed.

Lemma after_dots_one_line n : Str.one_line n = true → Str.after_dots n = "".
Proof.
  induction n as [|c n IH]; [done|]. simpl. case_decide; [done|]. auto.
Qed.

(** A reader suffix, with or without a page number, is stripped whole. *)
Lemma sanitize_url_suffix p n :
  Str.contains "/read" p = false → n ≠ "" → Str.one_line n = true →
  sanitize_url (p +:+ "/read/page/" +:+ n) = p ∧ sanitize_url (p +:+ "/read") = p.
Proof.
  intros Hp Hn Hl. split.
  - change (p +:+ "/read/page/" +:+ n) with (p +:+ "/read" +:+ "/page/" +:+ n).
    rewrite sanitize_url_app by done. rewrite <- (app_empty_r p) at 2. f_equal.
    destruct n as [|c n]; [done|]. simpl in Hl.
    rewrite sanitize_url_unfold. unfold match_read.
    rewrite (strip_prefix_app_eq "/read"), (strip_prefix_app_eq "/page/").
    case_decide; [by subst|]. by rewrite after_dots_one_line.
  - rewrite <- (app_empty_r "/read"), sanitize_url_app by done.
    by rewrite app_empty_r.
Qed.

(** ** The work queue *)

Lemma mem_true x l : Str.mem x l = true ↔ x ∈ l.
Proof. unfold Str.mem. apply bool_decide_eq_true. Qed.

Lemma mem_false x l : Str.mem x l = false ↔ x ∉ l.
Proof. unfold Str.mem. apply bool_decide_eq_false. Qed.


(** The loop of [__get_urls_list] over the lines of [urls_file], from
    any list [urls] built so far. *)
Lemma queue_loop_spec (done failed : list string) (lines urls : list string) :
  let step := λ urls line,
    let c := Str.remove_newlines line in
    let c := sanitize_url c in
    if negb (Str.mem c done) && negb (Str.mem c failed) && negb (Str.mem c urls)
    then urls ++ [c] else urls in
  let queue := foldl step urls lines in
  (NoDup urls → NoDup queue) ∧
  (∀ x, x ∈ queue ↔
        x ∈ urls ∨ (x ∈ clean_line <$> lines) ∧ x ∉ done ∧ x ∉ failed).
Proof.
  intros step. revert urls. induction lines as [|line lines IH]; intros urls; simpl.
  { split; [done|]. intros x. rewrite elem_of_nil. naive_solver. }
  destruct (IH (step urls line)) as [IHnd IHin]. split.
  - intros Hnd. apply IHnd. unfold step.
    fold (clean_line line).
    destruct (Str.mem (clean_line line) done), (Str.mem (clean_line line) failed),
      (Str.mem (clean_line line) urls) eqn:Hu; simpl; try done.
    apply mem_false in Hu. apply NoDup_app. split_and!; [done| |apply NoDup_singleton].
    intros y Hy ->%list_elem_of_singleton. done.
  - intros x. rewrite IHin, ?fmap_cons, elem_of_cons. unfold step. fold (clean_line line).
    destruct (Str.mem (clean_line line) done) eqn:Hd; simpl.
    { apply mem_true in Hd. split; [tauto|]. intros [?|[[->|?] [? ?]]]; tauto. }
    destruct (Str.mem (clean_line line) failed) eqn:Hf; simpl.
    { apply mem_true in Hf. split; [tauto|]. intros [?|[[->|?] [? ?]]]; tauto. }
    destruct (Str.mem (clean_line line) urls) eqn:Hu; simpl.
    { apply mem_true in Hu. split; [tauto|]. intros [?|[[->|?] [? ?]]]; tauto. }
    apply mem_false in Hd, Hf. rewrite elem_of_app, list_elem_of_singleton.
    split; [intros [[?| ->]|?]; tauto|tauto].
Qed.

Lemma get_urls_list_NoDup u d f : NoDup (get_urls_list u d f).
Proof. apply queue_loop_spec, NoDup_nil_2. Qed.

(** Membership in the queue: requested, and no line of the completed or
    of the failed file is that very string. *)
Lemma elem_of_get_urls_list x u d f :
  x ∈ get_urls_list u d f ↔
    x ∈ sanitize_url <$> read_list u ∧ x ∉ read_list d ∧ x ∉ read_list f.
Proof.
  unfold get_urls_list.
  rewrite (proj2 (queue_loop_spec (read_list d) (read_list f) (file_lines u) [])).
  unfold read_list at 3. rewrite <- list_fmap_compose, elem_of_nil.
  change (sanitize_url ∘ Str.remove_newlines) with clean_line. tauto.
Qed.

(** ** Canonical identifiers *)

(** C4, as amended: [sanitize_url] is idempotent at [x] exactly when
    what it returns for [x] contains no [/read]; it strips a reader
    suffix, with or without a page number, from an identifier that has no
    [/read] before it, and is idempotent there; the identifier
    [https://site/x/read/page/3] becomes [https://site/x]. *)
Theorem sanitize_url_idempotent_iff :
  (∀ x, sanitize_url (sanitize_url x) = sanitize_url x ↔
        Str.contains "/read" (sanitize_url x) = false) ∧
  (∀ p n, Str.contains "/read" p = false → n ≠ "" → Str.one_line n = true →
     sanitize_url (p +:+ "/read/page/" +:+ n) = p ∧
     sanitize_url (p +:+ "/read") = p ∧
     sanitize_url (sanitize_url (p +:+ "/read/page/" +:+ n)) =
       sanitize_url (p +:+ "/read/page/" +:+ n)) ∧
  sanitize_url "https://site/x/read/page/3" = "https://site/x".
Proof.
  split_and!.
  - intros x. apply sanitize_url_fixed_iff.
  - intros p n Hp Hn Hl. destruct (sanitize_url_suffix p n Hp Hn Hl) as [H1 H2].
    split_and!; [done..|]. rewrite H1. by apply sanitize_url_fixed.
  - reflexivity.
Qed.

Lemma sanitize_url_idempotent_iff_witness :
  sanitize_url ("https://www.fakku.net/hentai/x" +:+ "/read/page/" +:+ "12") =
    "https://www.fakku.net/hentai/x".
Proof.
  refine (proj1 (proj1 (proj2 sanitize_url_idempotent_iff)
                   "https://www.fakku.net/hentai/x" "12" _ _ _));
    [vm_compute; reflexivity|discriminate|reflexivity].
Defined.

(** C4 as stated fails: a [/read] can be put together by dropping one. *)
Lemma sanitize_url_not_idempotent :
  sanitize_url "https://site/x/re/readad" = "https://site/x/read" ∧
  sanitize_url (sanitize_url "https://site/x/re/readad") = "https://site/x" ∧
  sanitize_url (sanitize_url "https://site/x/re/readad") ≠
    sanitize_url "https://site/x/re/readad".
Proof. vm_compute. split_and!; [reflexivity..|discriminate]. Qed.

(** ** The work queue *)

(** C5: the queue built by [__get_urls_list] holds no identifier twice,
    holds only canonicalized requested identifiers, none of which is a
    line of the completed or of the failed file, and is the same up to
    order however the lines of the three files are ordered. *)
Theorem work_queue_excludes (urls_file done_file fail_file : string) :
  let queue := get_urls_list urls_file done_file fail_file in
  NoDup queue ∧
  (∀ x, x ∈ queue →
        x ∈ sanitize_url <$> read_list urls_file ∧
        x ∉ read_list done_file ∧ x ∉ read_list fail_file) ∧
  (∀ urls_file' done_file' fail_file',
     read_list urls_file' ≡ₚ read_list urls_file →
     read_list done_file' ≡ₚ read_list done_file →
     read_list fail_file' ≡ₚ read_list fail_file →
     get_urls_list urls_file' done_file' fail_file' ≡ₚ queue).
Proof.
  intros queue. split_and!.
  - apply get_urls_list_NoDup.
  - intros x. apply elem_of_get_urls_list.
  - intros u' d' f' Hu Hd Hf.
    apply NoDup_Permutation; [apply get_urls_list_NoDup..|].
    intros x. unfold queue. rewrite !elem_of_get_urls_list.
    by rewrite Hu, Hd, Hf.
Qed.

Lemma work_queue_excludes_witness :
  get_urls_list
    ("https://site/b" +:+ nl +:+ "https://site/a/read/page/3" +:+ nl +:+ "https://site/c")
    ("https://site/d" +:+ nl +:+ "https://site/c" +:+ nl) "" ≡ₚ
  get_urls_list
    ("https://site/a/read/page/3" +:+ nl +:+ "https://site/b" +:+ nl +:+ "https://site/c" +:+ nl)
    ("https://site/c" +:+ nl +:+ "https://site/d" +:+ nl) "".
Proof.
  refine (proj2 (proj2 (work_queue_excludes _ _ _)) _ _ _ _ _ _); vm_compute;
    [apply perm_swap|apply perm_swap|reflexivity].
Defined.

(** C10: exclusion from the queue compares the canonicalized requested
    identifier with the raw lines of the completed and of the failed
    file, character for character: the queue holds exactly the
    canonicalized requested identifiers that are no line of these files.
    A line that is not in canonical form therefore does not exclude its
    canonical form: whether that form is queued is decided by the
    request and by the other lines alone. *)
Theorem exclusion_is_literal (urls_file done_file fail_file line : string) :
  sanitize_url line ≠ line →
  (∀ x, x ∈ get_urls_list urls_file done_file fail_file ↔
        x ∈ sanitize_url <$> read_list urls_file ∧
        x ∉ read_list done_file ∧ x ∉ read_list fail_file) ∧
  (sanitize_url line ∈ get_urls_list urls_file done_file fail_file ↔
     sanitize_url line ∈ sanitize_url <$> read_list urls_file ∧
     sanitize_url line ∉ filter (λ l, l ≠ line) (read_list done_file) ∧
     sanitize_url line ∉ filter (λ l, l ≠ line) (read_list fail_file)).
Proof.
  intros Hline. split; [intros x; apply elem_of_get_urls_list|].
  rewrite elem_of_get_urls_list, !list_elem_of_filter. tauto.
Qed.

Lemma exclusion_is_literal_witness :
  "https://site/x" ∈
    get_urls_list ("https://site/x" +:+ nl) ("https://site/x/read/page/3" +:+ nl) "".
Proof.
  refine (proj2 (proj2 (exclusion_is_literal
            ("https://site/x" +:+ nl) ("https://site/x/read/page/3" +:+ nl) ""
            "https://site/x/read/page/3" _)) _).
  - vm_compute. discriminate.
  - vm_compute. split_and!; [left|by inversion 1..].
Defined.

(** Literal equality at work: beside a line that is not canonical, a
    line that is the canonical form itself excludes it, as it excludes
    any identifier equal to it. *)
Lemma canonical_form_excluded_when_listed :
  let done_file :=
    "https://site/x/read/page/3" +:+ nl +:+ "https://site/x" +:+ nl in
  read_list done_file = ["https://site/x/read/page/3"; "https://site/x"] ∧
  sanitize_url "https://site/x/read/page/3" = "https://site/x" ∧
  get_urls_list ("https://site/x" +:+ nl) done_file "" = [].
Proof. vm_compute. done. Qed.

(** ** What [sanitize_url] does to the characters of a url *)

Lemma chars_app (s t : string) : chars (s +:+ t) = chars s ++ chars t.
Proof. induction s as [|c s IH]; [done|]. rewrite app_cons. simpl. by rewrite <- IH. Qed.

Lemma after_dots_suffix s : ∃ m, s = m +:+ Str.after_dots s.
Proof.
  induction s as [|c s [m IH]]; [by exists ""|]. simpl. case_decide.
  - by exists "".
  - exists (String c m). by rewrite app_cons, <- IH.
Qed.

(** What a match of the pattern leaves is an end of the text. *)
Lemma match_read_suffix s r : match_read s = Some r → ∃ m, s = m +:+ r.
Proof.
  unfold match_read. destruct (Str.strip_prefix "/read" s) as [t|] eqn:Ht; [|done].
  apply strip_prefix_app in Ht as ->.
  destruct (Str.strip_prefix "/page/" t) as [[|c u]|] eqn:Hu;
    [intros [= <-]; by eexists| |intros [= <-]; by eexists].
  apply strip_prefix_app in Hu as ->.
  case_decide; intros [= <-]; [by eexists|].
  destruct (after_dots_suffix u) as [m Hm].
  exists ("/read" +:+ "/page/" +:+ String c m).
  rewrite !app_assoc, (app_cons c). by rewrite <- Hm.
Qed.

Lemma sanitize_url_sublist s : sublist (chars (sanitize_url s)) (chars s).
Proof.
  cut (∀ n s, String.length s ≤ n → sublist (chars (sanitize_url s)) (chars s));
    [by eauto|].
  clear s. induction n as [|n IH]; intros s Hn; rewrite sanitize_url_unfold.
  - destruct s; [|simpl in Hn; lia].
    destruct (match_read "") as [r|] eqn:Hr; [|done].
    apply match_read_length in Hr. simpl in Hr. lia.
  - destruct (match_read s) as [r|] eqn:Hr.
    + pose proof (match_read_length _ _ Hr) as Hlen.
      apply match_read_suffix in Hr as [m ->].
      etrans; [apply IH; lia|]. rewrite chars_app. apply sublist_inserts_l. done.
    + destruct s as [|c s]; [done|]. simpl in *. apply sublist_skip, IH. lia.
Qed.

Lemma one_line_chars s : Str.one_line s = true ↔ Str.newline ∉ chars s.
Proof.
  induction s as [|c s IH]; simpl.
  { split; [intros _ ?%elem_of_nil; done|done]. }
  rewrite elem_of_cons. case_decide as Hc; [subst; split; [done|tauto]|].
  rewrite IH. split; [intros ? [?|?]; congruence|tauto].
Qed.

Lemma sanitize_url_one_line s :
  Str.one_line s = true → Str.one_line (sanitize_url s) = true.
Proof.
  rewrite !one_line_chars. intros Hs Hin. apply Hs.
  eapply sublist_subseteq; [apply sanitize_url_sublist|done].
Qed.

(** X1: [sanitize_url] only deletes: the characters of what it returns
    are characters of the url, in the order they have there; nothing is
    added, replaced or moved. *)
Theorem sanitize_url_only_deletes (url : string) :
  sublist (chars (sanitize_url url)) (chars url) ∧
  String.length (sanitize_url url) ≤ String.length url.
Proof. split; [apply sanitize_url_sublist|apply sanitize_url_length]. Qed.

(** X2: the pattern is not anchored to the end of the url or to a whole
    path segment: [/read] is dropped wherever it stands, so an identifier
    whose last segment begins with [read] loses these characters and the
    [/] before them. *)
Theorem sanitize_url_drops_read_inside (p x : string) :
  Str.contains "/read" p = false →
  Str.contains "/read" x = false →
  Str.strip_prefix "/page/" x = None →
  sanitize_url (p +:+ "/read" +:+ x) = p +:+ x.
Proof.
  intros Hp Hx Hpage. rewrite sanitize_url_app by done. f_equal.
  rewrite sanitize_url_unfold. unfold match_read.
  rewrite (strip_prefix_app_eq "/read"), Hpage. by apply sanitize_url_fixed.
Qed.

(** X3: the page part of the pattern needs a character after [/page/]:
    of a reader url that ends in [/read/page/] only [/read] is dropped,
    and [/page/] stays in the identifier. *)
Theorem sanitize_url_needs_page_number (p : string) :
  Str.contains "/read" p = false →
  sanitize_url (p +:+ "/read/page/") = p +:+ "/page/".
Proof.
  intros Hp. change (p +:+ "/read/page/") with (p +:+ "/read" +:+ "/page/").
  rewrite sanitize_url_app by done. f_equal.
Qed.

(** ** The order of the work queue *)

(** The loop of [__get_urls_list] keeps, of the lines it may queue, the
    first occurrence of each. ([remove_dups] keeps the last occurrence,
    hence the two reversals.) *)
Lemma queue_loop_first (done failed lines : list string) :
  foldl
    (λ urls line,
       let c := Str.remove_newlines line in
       let c := sanitize_url c in
       if negb (Str.mem c done) && negb (Str.mem c failed) && negb (Str.mem c urls)
       then urls ++ [c] else urls)
    [] lines =
  reverse (remove_dups (reverse
    (filter (λ x, x ∉ done ∧ x ∉ failed) (clean_line <$> lines)))).
Proof.
  cbv zeta. induction lines as [|line lines IH] using rev_ind; [done|].
  rewrite foldl_app, fmap_app, filter_app, reverse_app. cbn [foldl].
  rewrite IH, fmap_cons, fmap_nil. fold (clean_line line).
  generalize (clean_line line). intros c.
  generalize (reverse (filter (λ x, x ∉ done ∧ x ∉ failed) (clean_line <$> lines))).
  intros R.
  destruct (decide (c ∉ done ∧ c ∉ failed)) as [Hyes|Hno].
  - rewrite filter_cons_True by exact Hyes. rewrite filter_nil, reverse_singleton.
    destruct Hyes as [Hd Hf]. apply mem_false in Hd as Hd', Hf as Hf'. rewrite Hd', Hf'. simpl.
    destruct (decide_rel elem_of c R) as [Hin|Hin].
    + assert (Str.mem c (reverse (remove_dups R)) = true) as ->; [|done].
      apply mem_true. by rewrite elem_of_reverse, elem_of_remove_dups.
    + assert (Str.mem c (reverse (remove_dups R)) = false) as ->.
      { apply mem_false. by rewrite elem_of_reverse, elem_of_remove_dups. }
      simpl. by rewrite reverse_cons.
  - rewrite filter_cons_False by exact Hno. rewrite filter_nil. simpl.
    destruct (Str.mem c done) eqn:Hd; [done|].
    destruct (Str.mem c failed) eqn:Hf; [done|].
    apply mem_false in Hd, Hf. tauto.
Qed.

(** X4: the work queue lists, in the order of the requested file, the
    first occurrence of every canonicalized line that is no line of the
    completed or of the failed file. *)
Theorem work_queue_first_occurrences (urls_file done_file fail_file : string) :
  get_urls_list urls_file done_file fail_file =
    reverse (remove_dups (reverse
      (filter (λ x, x ∉ read_list done_file ∧ x ∉ read_list fail_file)
              (sanitize_url <$> read_list urls_file)))).
Proof.
  assert (sanitize_url <$> read_list urls_file = clean_line <$> file_lines urls_file)
    as -> by (unfold read_list; by rewrite <- list_fmap_compose).
  unfold get_urls_list. cbv zeta. apply queue_loop_first.
Qed.

(** ** Reading back what was recorded *)

Lemma file_lines_nil s : file_lines s = [] → s = "".
Proof.
  destruct s as [|c s]; [done|]. simpl. case_decide; [done|].
  by destruct (file_lines s).
Qed.

Lemma terminated_cons c t : t ≠ "" → terminated (String c t) = terminated t.
Proof. by destruct t. Qed.

(** Text appended to a file whose lines are all terminated starts a
    line of its own. *)
Lemma file_lines_app t x :
  terminated t = true → file_lines (t +:+ x) = file_lines t ++ file_lines x.
Proof.
  induction t as [|c t IH]; [done|]. intros Ht. rewrite app_cons.
  destruct (decide (t = "")) as [->|Hne].
  { simpl in Ht. apply bool_decide_eq_true in Ht as ->. done. }
  rewrite terminated_cons in Ht by done. simpl. rewrite IH by done.
  case_decide; [done|].
  destruct (file_lines t) as [|l ls] eqn:Hl; [by apply file_lines_nil in Hl|done].
Qed.

Lemma terminated_app t x :
  terminated t = true → terminated x = true → terminated (t +:+ x) = true.
Proof.
  induction t as [|c t IH]; [done|]. intros Ht Hx. rewrite app_cons.
  destruct (decide (t = "")) as [->|Hne].
  { rewrite app_empty_l. destruct x; [done|by rewrite terminated_cons]. }
  rewrite terminated_cons in Ht by done.
  rewrite terminated_cons; [by apply IH|]. by destruct t.
Qed.

Lemma terminated_line url : terminated (url +:+ nl) = true.
Proof.
  induction url as [|c url IH]; [done|]. rewrite app_cons, terminated_cons; [done|].
  by destruct url.
Qed.

Lemma file_lines_line url :
  Str.one_line url = true → file_lines (url +:+ nl) = [url +:+ nl].
Proof.
  induction url as [|c url IH]; [done|]. simpl. case_decide; [done|]. intros Hl.
  rewrite ?app_cons. simpl. rewrite ?decide_False by done. by rewrite IH.
Qed.

Lemma remove_newlines_line url :
  Str.one_line url = true → Str.remove_newlines (url +:+ nl) = url.
Proof.
  induction url as [|c url IH]; [done|]. simpl. case_decide; [done|]. intros Hl.
  rewrite ?app_cons. simpl. rewrite ?decide_False by done. by rewrite IH.
Qed.

Lemma read_list_line t url :
  terminated t = true → Str.one_line url = true →
  read_list (t +:+ url +:+ nl) = read_list t ++ [url].
Proof.
  intros Ht Hl. unfold read_list.
  rewrite file_lines_app, fmap_app, file_lines_line by done.
  by rewrite fmap_cons, remove_newlines_line.
Qed.

(** Reading a list file after [ids] were recorded in it. *)
Lemma read_list_lines t ids :
  terminated t = true → Forall (λ id, Str.one_line id = true) ids →
  read_list (t +:+ lines ids) = read_list t ++ ids ∧
  terminated (t +:+ lines ids) = true.
Proof.
  intros Ht Hids. revert t Ht. induction Hids as [|id ids Hid _ IH]; intros t Ht.
  { simpl. by rewrite app_empty_r, app_nil_r. }
  change (lines (id :: ids)) with (id +:+ nl +:+ lines ids). rewrite <- !app_assoc.
  destruct (IH ((t +:+ id) +:+ nl)) as [-> ->].
  { rewrite app_assoc. apply terminated_app; [done|apply terminated_line]. }
  split; [|done].
  by rewrite app_assoc, read_list_line, <- (assoc (++)) by done.
Qed.

Lemma plain_line_one_line u : plain_line u = true → Str.one_line u = true.
Proof. unfold plain_line. by intros [? _]%andb_true_iff. Qed.

(** X5: what [add_done] and [add_failed] write is read back as one
    line: when the list file is empty or ends with a line feed and the
    identifier has neither a line feed nor a carriage return in it, the
    lines read from the file afterwards are the lines read before,
    followed by the identifier; no queue built from these files holds
    the identifier, and the file ends with a line feed again. *)
Theorem recorded_identifier_is_read_back (url urls_file : string) (s : state) :
  plain_line url = true →
  terminated (done_txt s) = true → terminated (fail_txt s) = true →
  let s1 := final (add_done url s) in
  let s2 := final (add_failed url s) in
  read_list (done_txt s1) = read_list (done_txt s) ++ [url] ∧
  read_list (fail_txt s2) = read_list (fail_txt s) ++ [url] ∧
  url ∉ get_urls_list urls_file (done_txt s1) (fail_txt s1) ∧
  url ∉ get_urls_list urls_file (done_txt s2) (fail_txt s2) ∧
  terminated (done_txt s1) = true ∧ terminated (fail_txt s2) = true.
Proof.
  intros Hl%plain_line_one_line Hd Hf. simpl.
  rewrite !read_list_line by done.
  split_and!; [done..| | | |].
  - rewrite elem_of_get_urls_list, read_list_line, elem_of_app, list_elem_of_singleton
      by done. tauto.
  - rewrite elem_of_get_urls_list, read_list_line, elem_of_app, list_elem_of_singleton
      by done. tauto.
  - apply terminated_app; [done|apply terminated_line].
  - apply terminated_app; [done|apply terminated_line].
Qed.

(** ** Decimal numbers as the patterns read them *)

Lemma is_nat_pretty_N_char d :
  (d < 10)%N → Ascii.is_nat (pretty_N_char d) = Some (N.to_nat d).
Proof.
  intros Hd.
  assert (d = 0 ∨ d = 1 ∨ d = 2 ∨ d = 3 ∨ d = 4 ∨ d = 5 ∨ d = 6 ∨ d = 7
          ∨ d = 8 ∨ d = 9)%N as Hcases by lia.
  repeat (destruct Hcases as [->|Hcases]; [reflexivity|]). by subst.
Qed.

Lemma int_of_digits_from d : int_of_digits d = digits_from 0 d.
Proof.
  enough (∀ acc,
    (fix go (acc : nat) (d : string) {struct d} : nat :=
       match d with
       | "" => acc
       | String c d' => go (10 * acc + default 0 (Ascii.is_nat c)) d'
       end) acc d = digits_from acc d) as H by apply H.
  induction d as [|c d IH]; intros acc; simpl; auto.
Qed.

(** Reading the digits [pretty] writes gives the number back. *)
Lemma digits_from_pretty_N_go x :
  ∃ k, ∀ acc s,
    digits_from acc (pretty_N_go x s) = digits_from (acc * 10 ^ k + N.to_nat x) s.
Proof.
  induction (N.lt_wf_0 x) as [x _ IH].
  destruct (decide (x = 0)%N) as [->|Hx].
  { exists 0. intros acc s. rewrite pretty_N_go_0. f_equal. simpl. lia. }
  destruct (IH (x `div` 10)%N) as [k Hk]; [apply N.div_lt; lia|].
  exists (S k). intros acc s. rewrite pretty_N_go_step by lia. rewrite Hk.
  cbn [digits_from]. rewrite is_nat_pretty_N_char by (apply N.mod_lt; lia).
  f_equal. cbn [default from_option]. rewrite Nat.pow_succ_r'.
  pose proof (N.div_mod x 10 ltac:(lia)) as Hdm.
  assert (N.to_nat x = 10 * N.to_nat (x `div` 10) + N.to_nat (x `mod` 10)) as -> by lia.
  generalize (10 ^ k). intros p. unfold id. lia.
Qed.

Lemma int_of_digits_pretty (n : nat) : int_of_digits (pretty n) = n.
Proof.
  rewrite int_of_digits_from. unfold pretty, pretty_nat, pretty, pretty_N.
  case_decide as Hn; [simpl; lia|].
  destruct (digits_from_pretty_N_go (N.of_nat n)) as [k ->]. simpl. lia.
Qed.

Lemma span_digits_pretty_N_go x s r :
  span_digits (s +:+ r) = (s, r) →
  span_digits (pretty_N_go x s +:+ r) = (pretty_N_go x s, r).
Proof.
  revert s. induction (N.lt_wf_0 x) as [x _ IH]. intros s Hs.
  destruct (decide (x = 0)%N) as [->|Hx]; [by rewrite pretty_N_go_0|].
  rewrite pretty_N_go_step by lia. apply IH; [apply N.div_lt; lia|].
  rewrite app_cons. simpl. rewrite is_nat_pretty_N_char by (apply N.mod_lt; lia).
  by rewrite Hs.
Qed.

(** The run of digits at the head of a number written in decimal and
    followed by something else is that number. *)
Lemma span_digits_pretty (n : nat) r :
  span_digits r = ("", r) → span_digits (pretty n +:+ r) = (pretty n, r).
Proof.
  intros Hr. unfold pretty, pretty_nat, pretty, pretty_N.
  case_decide; [rewrite app_cons, app_empty_l; simpl; by rewrite Hr|].
  by apply span_digits_pretty_N_go.
Qed.

Lemma pretty_N_go_length x s : String.length s ≤ String.length (pretty_N_go x s).
Proof.
  revert s. induction (N.lt_wf_0 x) as [x _ IH]. intros s.
  destruct (decide (x = 0)%N) as [->|Hx]; [by rewrite pretty_N_go_0|].
  rewrite pretty_N_go_step by lia.
  etrans; [|apply IH, N.div_lt; lia]. simpl. lia.
Qed.

Lemma pretty_nat_nonempty (n : nat) : pretty n ≠ "".
Proof.
  unfold pretty, pretty_nat, pretty, pretty_N. case_decide; [done|].
  rewrite pretty_N_go_step by lia. intros Hp.
  pose proof (pretty_N_go_length (N.of_nat n `div` 10)
                (String (pretty_N_char (N.of_nat n `mod` 10)) "")) as Hlen.
  rewrite Hp in Hlen. simpl in Hlen. lia.
Qed.

(** ** The page count of an item *)

Local Arguments span_digits : simpl never.
Local Arguments match_page_count : simpl never.

(** The pattern matches its marker. *)
Lemma match_page_count_marker n plural post :
  match_page_count (page_marker n plural +:+ post) = Some (pretty n).
Proof.
  unfold match_page_count, page_marker.
  rewrite !app_assoc, (strip_prefix_app_eq (String dquote ">")). simpl mbind.
  rewrite span_digits_pretty by (by destruct plural).
  cbn [fst snd]. rewrite decide_False by apply pretty_nat_nonempty.
  rewrite (strip_prefix_app_eq " page").
  destruct plural.
  - rewrite app_cons, app_empty_l. cbn [mbind option_bind].
    by rewrite (strip_prefix_app_eq "</div>").
  - rewrite app_empty_l, app_cons. cbn [mbind option_bind].
    rewrite <- app_cons. by rewrite (strip_prefix_app_eq "</div>").
Qed.

Lemma search_page_count_leftmost pre rest d :
  (∀ a b, pre = a +:+ b → b ≠ "" → match_page_count (b +:+ rest) = None) →
  match_page_count rest = Some d →
  search_page_count (pre +:+ rest) = Some d.
Proof.
  intros Hpre Hrest. induction pre as [|c pre IH].
  { rewrite app_empty_l. destruct rest; cbn [search_page_count]; by rewrite Hrest. }
  rewrite app_cons. cbn [search_page_count]. rewrite <- app_cons.
  rewrite (Hpre "" (String c pre)) by done.
  apply IH. intros a b -> Hb. by apply (Hpre (String c a) b).
Qed.

(** X6: the page count of an item is the number its leftmost marker
    shows: for a page source in which the pattern matches nowhere before
    the marker of [n], written in decimal with [ page] or [ pages],
    [__get_page_count] returns [n]. *)
Theorem get_page_count_reads_marker (pre post : string) (n : nat) (plural : bool)
    (s : state) :
  (∀ a b, pre = a +:+ b → b ≠ "" →
     match_page_count (b +:+ page_marker n plural +:+ post) = None) →
  get_page_count (pre +:+ page_marker n plural +:+ post) s = Ret n s.
Proof.
  intros Hpre. unfold get_page_count.
  rewrite (search_page_count_leftmost pre _ (pretty n));
    [|done|apply match_page_count_marker].
  by rewrite int_of_digits_pretty.
Qed.

Lemma contains_empty p : p ≠ "" → Str.contains p "" = false.
Proof. by destruct p. Qed.

(** X7: a page source that has no double quote followed by [>] in it,
    the empty one among them, has no page count: [__get_page_count]
    raises [ValueError] and changes nothing. *)
Theorem get_page_count_needs_marker (page_source : string) (s : state) :
  Str.contains (String dquote ">") page_source = false →
  get_page_count page_source s = Raise ValueError s.
Proof.
  intros Hc. unfold get_page_count.
  assert (search_page_count page_source = None) as ->; [|done].
  induction page_source as [|c src IH].
  - reflexivity.
  - rewrite contains_cons in Hc.
    destruct (Str.strip_prefix (String dquote ">") (String c src)) eqn:Hp; [done|].
    cbn [search_page_count]. unfold match_page_count at 1. rewrite Hp.
    cbn [mbind option_bind]. by apply IH.
Qed.

(** ** The reader url of a page *)

Lemma one_line_pretty_N_go x s :
  Str.one_line s = true → Str.one_line (pretty_N_go x s) = true.
Proof.
  revert s. induction (N.lt_wf_0 x) as [x _ IH]. intros s Hs.
  destruct (decide (x = 0)%N) as [->|Hx]; [by rewrite pretty_N_go_0|].
  rewrite pretty_N_go_step by lia. apply IH; [apply N.div_lt; lia|].
  simpl. rewrite decide_False; [done|].
  unfold pretty_N_char. by repeat case_match.
Qed.

Lemma one_line_pretty (n : nat) : Str.one_line (pretty n) = true.
Proof.
  unfold pretty, pretty_nat, pretty, pretty_N. case_decide; [done|].
  by apply one_line_pretty_N_go.
Qed.

(** X8: the reader urls the program makes for the pages of an item
    canonicalize back to the item: [sanitize_url] of
    [f"{url}/read/page/{page_num}"] is [url], for every page number,
    when [url] has no [/read] in it. *)
Theorem reader_url_canonicalizes_back (url : string) (page_num : nat) :
  Str.contains "/read" url = false →
  sanitize_url (reader_url url page_num) = url.
Proof.
  intros Hurl. unfold reader_url.
  apply (sanitize_url_suffix url (pretty page_num) Hurl);
    [apply pretty_nat_nonempty|apply one_line_pretty].
Qed.

(** ** A program logic for [M] *)


Lemma run_bind {A B} (m : M A) (f : A → M B) s :
  (m ≫= f) s = match m s with Ret a s' => f a s' | Raise e s' => Raise e s' end.
Proof. reflexivity. Qed.

Lemma run_ret_eq {A} (a : A) (s : state) : (mret a : M A) s = Ret a s.
Proof. reflexivity. Qed.

Lemma for_in_cons {A L} (x : A) (l : list A) (body : A → L → M L) (acc : L) :
  for_in (x :: l) body acc = (acc' ← body x acc; for_in l body acc').
Proof. reflexivity. Qed.

Lemma hoare_conseq {A} (P P' : state → Prop) (m : M A) (Q Q' : A → state → Prop)
    (E E' : exn → state → Prop) :
  hoare P' m Q' E' →
  (∀ s, P s → P' s) → (∀ a s, Q' a s → Q a s) → (∀ e s, E' e s → E e s) →
  hoare P m Q E.
Proof.
  intros Hm HP HQ HE s Hs. specialize (Hm s (HP s Hs)).
  destruct (m s); auto.
Qed.

Lemma hoare_ret {A} (P : state → Prop) (a : A) Q E :
  (∀ s, P s → Q a s) → hoare P (mret a) Q E.
Proof. intros H s Hs. by apply H. Qed.

Lemma hoare_bind {A B} (P : state → Prop) (m : M A) (f : A → M B) R Q E :
  hoare P m R E → (∀ a, hoare (R a) (f a) Q E) → hoare P (m ≫= f) Q E.
Proof.
  intros Hm Hf s Hs. rewrite run_bind. specialize (Hm s Hs).
  destruct (m s) as [a s'|e s']; [by apply Hf|done].
Qed.

Lemma hoare_raise {A} (P : state → Prop) e (Q : A → state → Prop) (E : exn → state → Prop) :
  (∀ s, P s → E e s) → hoare P (raise e) Q E.
Proof. intros H s Hs. by apply H. Qed.

Lemma hoare_gets {A} (P : state → Prop) (f : state → A) Q E :
  (∀ s, P s → Q (f s) s) → hoare P (gets f) Q E.
Proof. intros H s Hs. by apply H. Qed.

Lemma hoare_modify (P : state → Prop) (f : state → state) Q E :
  (∀ s, P s → Q () (f s)) → hoare P (modify f) Q E.
Proof. intros H s Hs. by apply H. Qed.

Lemma hoare_try_except {A} (P : state → Prop) (m : M A) e handler Q E E' :
  hoare P m Q E' →
  (∀ e' s, e' ≠ e → E' e' s → E e' s) →
  hoare (E' e) handler Q E →
  hoare P (try_except m e handler) Q E.
Proof.
  intros Hm HE Hh s Hs. unfold try_except. specialize (Hm s Hs).
  destruct (m s) as [a s'|e' s']; [done|].
  case_decide; [subst; by apply Hh|by apply HE].
Qed.

Lemma hoare_attempt {A} (P : state → Prop) (m : M A) e
    (Q : option A → state → Prop) E E' :
  hoare P m (λ a, Q (Some a)) E' →
  (∀ e' s, e' ≠ e → E' e' s → E e' s) →
  (∀ s, E' e s → Q None s) →
  hoare P (attempt m e) Q E.
Proof.
  intros Hm HE Hh s Hs. unfold attempt. specialize (Hm s Hs).
  destruct (m s) as [a s'|e' s']; [done|].
  case_decide; [subst; by apply Hh|by apply HE].
Qed.

Lemma hoare_for_in {A L} (I : L → state → Prop) (l : list A) (body : A → L → M L) acc E :
  (∀ x acc, x ∈ l → hoare (I acc) (body x acc) I E) →
  hoare (I acc) (for_in l body acc) I E.
Proof.
  revert acc. induction l as [|x l IH]; intros acc Hbody; simpl.
  { by apply hoare_ret. }
  eapply hoare_bind; [apply Hbody; left|].
  intros acc'. apply IH. intros y acc'' Hy. apply Hbody. by right.
Qed.

Lemma hoare_for_in_break {A L} (I : L → state → Prop) (l : list A)
    (body : A → L → M (ctl * L)) acc E :
  (∀ x acc, x ∈ l → hoare (I acc) (body x acc) (λ r, I r.2) E) →
  hoare (I acc) (for_in_break l body acc) (λ r, I r.2) E.
Proof.
  revert acc. induction l as [|x l IH]; intros acc Hbody; simpl.
  { by apply hoare_ret. }
  eapply hoare_bind; [apply Hbody; left|].
  intros [[] acc']; simpl; [|by apply hoare_ret].
  apply IH. intros y acc'' Hy. apply Hbody. by right.
Qed.

(** What is true of the final state however [m] ends. *)
Lemma hoare_final {A} (P : state → Prop) (m : M A) (R : state → Prop) s :
  hoare P m (λ _, R) (λ _, R) → P s → R (final (m s)).
Proof. intros H Hs. specialize (H s Hs). by destruct (m s). Qed.


Lemma keeps_ret {A} I (a : A) : keeps I (mret a).
Proof. by apply hoare_ret. Qed.

Lemma keeps_bind {A B} I (m : M A) (f : A → M B) :
  keeps I m → (∀ a, keeps I (f a)) → keeps I (m ≫= f).
Proof. intros Hm Hf. eapply hoare_bind; [apply Hm|apply Hf]. Qed.

Lemma keeps_raise {A} I e : keeps I (raise e : M A).
Proof. by apply hoare_raise. Qed.

Lemma keeps_gets {A} I (f : state → A) : keeps I (gets f).
Proof. by apply hoare_gets. Qed.

Lemma keeps_modify I (f : state → state) : (∀ s, I s → I (f s)) → keeps I (modify f).
Proof. intros. by apply hoare_modify. Qed.

Lemma keeps_try_except {A} I (m : M A) e handler :
  keeps I m → keeps I handler → keeps I (try_except m e handler).
Proof. intros Hm Hh. eapply hoare_try_except; [apply Hm|done|apply Hh]. Qed.

Lemma keeps_attempt {A} I (m : M A) e : keeps I m → keeps I (attempt m e).
Proof. intros Hm. eapply hoare_attempt; [apply Hm|done|done]. Qed.

Lemma keeps_for_in {A L} I (l : list A) (body : A → L → M L) acc :
  (∀ x acc, x ∈ l → keeps I (body x acc)) → keeps I (for_in l body acc).
Proof. intros Hb. by apply (hoare_for_in (λ _, I)). Qed.

Lemma keeps_for_in_break {A L} I (l : list A) (body : A → L → M (ctl * L)) acc :
  (∀ x acc, x ∈ l → keeps I (body x acc)) → keeps I (for_in_break l body acc).
Proof. intros Hb. by apply (hoare_for_in_break (λ _, I)). Qed.

Lemma keeps_if {A} I (b : bool) (m1 m2 : M A) :
  keeps I m1 → keeps I m2 → keeps I (if b then m1 else m2).
Proof. by destruct b. Qed.

Lemma keeps_final {A} I (m : M A) s : keeps I m → I s → I (final (m s)).
Proof. apply hoare_final. Qed.

(** A calculation that neither returns nor raises with a changed state. *)
Lemma keeps_pure {A} I (m : M A) : (∀ s, final (m s) = s) → keeps I m.
Proof. intros Hm s Hs. specialize (Hm s). by destruct (m s); simpl in *; subst. Qed.



Lemma unchanged_keeps {A B} (proj : state → B) (m : M A) (J : B → Prop) :
  unchanged proj m → keeps (λ s, J (proj s)) m.
Proof.
  intros Hm s Hs. specialize (Hm s). destruct (m s); simpl in *; by rewrite Hm.
Qed.

Lemma unchanged_ret {A B} (proj : state → B) (a : A) : unchanged proj (mret a).
Proof. done. Qed.

Lemma unchanged_bind {A A' B} (proj : state → B) (m : M A) (f : A → M A') :
  unchanged proj m → (∀ a, unchanged proj (f a)) → unchanged proj (m ≫= f).
Proof.
  intros Hm Hf s. rewrite run_bind. specialize (Hm s).
  destruct (m s) as [a s'|e s']; simpl in *; [|done]. by rewrite Hf.
Qed.

Lemma unchanged_try_except {A B} (proj : state → B) (m : M A) e handler :
  unchanged proj m → unchanged proj handler → unchanged proj (try_except m e handler).
Proof.
  intros Hm Hh s. unfold try_except. specialize (Hm s).
  destruct (m s) as [a s'|e' s']; simpl in *; [done|].
  case_decide; [by rewrite Hh|done].
Qed.

Lemma unchanged_attempt {A B} (proj : state → B) (m : M A) e :
  unchanged proj m → unchanged proj (attempt m e).
Proof.
  intros Hm s. unfold attempt. specialize (Hm s).
  destruct (m s) as [a s'|e' s']; simpl in *; [done|]. by case_decide.
Qed.

Lemma unchanged_for_in {A L B} (proj : state → B) (l : list A) (body : A → L → M L) acc :
  (∀ x acc, unchanged proj (body x acc)) → unchanged proj (for_in l body acc).
Proof.
  intros Hb. revert acc. induction l as [|x l IH]; intros acc; simpl; [done|].
  by apply unchanged_bind.
Qed.

Lemma unchanged_if {A B} (proj : state → B) (b : bool) (m1 m2 : M A) :
  unchanged proj m1 → unchanged proj m2 → unchanged proj (if b then m1 else m2).
Proof. by destruct b. Qed.

Lemma never_exits_ret {A} (a : A) : never_exits (mret a).
Proof. done. Qed.

Lemma never_exits_bind {A B} (m : M A) (f : A → M B) :
  never_exits m → (∀ a, never_exits (f a)) → never_exits (m ≫= f).
Proof.
  intros Hm Hf s. rewrite run_bind. specialize (Hm s).
  destruct (m s) as [a s'|e s']; [apply Hf|done].
Qed.

Lemma never_exits_for_in {A L} (l : list A) (body : A → L → M L) acc :
  (∀ x acc, never_exits (body x acc)) → never_exits (for_in l body acc).
Proof.
  intros Hb. revert acc. induction l as [|x l IH]; intros acc; simpl; [done|].
  by apply never_exits_bind.
Qed.

Lemma never_exits_if {A} (b : bool) (m1 m2 : M A) :
  never_exits m1 → never_exits m2 → never_exits (if b then m1 else m2).
Proof. by destruct b. Qed.

(** Unfolding the monad and the calls of the program down to states. *)
Ltac unfold_M :=
  unfold try_except, attempt, program_exit, print, sleep, set_window_size,
    path_exists, mkdir, isfile, os_remove, os_rmdir, image_open, save_screenshot,
    js_canvas_width, js_canvas_height, js_remove_layer, js_window_metrics,
    js_viewport_window, switch_to_iframe, switch_to_default_content, wait_until,
    browser_get, zip_open, zip_write, zip_exists, write_url,
    modify, gets, raise, mbind, M_bind, mret, M_ret in *.

(** A call that is short enough to run through all its cases. *)
Ltac untouched :=
  let s := fresh "s" in
  intros s; unfold lists, raised; unfold_M; simpl; try done;
  repeat (case_match; simplify_eq; simpl; try done).
(** ** The methods of [FDownloader] *)

Section FDownloader_facts.

Context (self : config) (web : nat → string → page).

Lemma waiting_loading_page_lists r d : unchanged lists (waiting_loading_page r d).
Proof. unfold waiting_loading_page. destruct r, d; untouched. Qed.

Lemma reinit_browser_lists : unchanged lists (reinit_browser self web).
Proof. unfold reinit_browser. untouched. Qed.

Lemma remove_manga_folder_lists folder n : unchanged lists (remove_manga_folder folder n).
Proof.
  unfold remove_manga_folder. apply unchanged_bind; [|intros; untouched].
  apply unchanged_for_in. intros; untouched.
Qed.

(** *** [waiting_loading_page] *)

(** The state a wait that succeeds leaves. *)
Lemma waiting_loading_page_ready r d s :
  ready r (shown s) = true →
  waiting_loading_page r d s =
    Ret () (set_in_frame r (add_slept (if r && d then 3 else 1) s)).
Proof.
  unfold ready, waiting_loading_page. intros Hr.
  destruct r, d; unfold_M; simpl; try rewrite Hr; try done;
    destruct (iframe_present (shown s)); simpl in *; try done; by rewrite Hr.
Qed.

(** A wait that fails exits the program; the disk, the lists and the
    history are as they were. *)
Lemma waiting_loading_page_not_ready r d s :
  ready r (shown s) = false →
  ∃ s', waiting_loading_page r d s = Raise SystemExit s' ∧
        history s' = history s ∧ shown s' = shown s ∧ window s' = window s ∧
        dirs s' = dirs s ∧ zips s' = zips s ∧ urls_txt s' = urls_txt s ∧
        done_txt s' = done_txt s ∧ fail_txt s' = fail_txt s ∧
        last (stdout s') = Some "Program exit.".
Proof.
  unfold ready, waiting_loading_page. intros Hr.
  destruct r, d; unfold_M; simpl; try rewrite Hr;
    try (destruct (iframe_present (shown s)); simpl in *; try rewrite Hr);
    eexists; (split; [reflexivity|]); simpl; rewrite ?last_snoc; done.
Qed.

(** *** The body of the main loop, case by case *)

Lemma load_url_blank url k s :
  Str.blank url = true → load_url self web url k s = Ret (Continue, k) s.
Proof. intros Hb. unfold load_url. by rewrite Hb. Qed.

Lemma load_url_index url k s :
  Str.blank url = false →
  load_url self web url k s =
    match waiting_loading_page false false
            (navigate (sanitize_url url)
               (web (length (history s)) (sanitize_url url)) s) with
    | Raise e s' => Raise e s'
    | Ret _ s1 =>
        match search_page_count (page_source (shown s1)) with
        | None => (add_failed (sanitize_url url);; mret (Continue, k)) s1
        | Some d =>
            let manga_name := Str.last_segment (sanitize_url url) in
            ((there ← path_exists manga_name;
              if there : bool then mret () else mkdir manga_name);;
             print ("Downloading " +:+ String dquote manga_name
                    +:+ String dquote " manga.");;
             fetch_pages self web (sanitize_url url) manga_name (int_of_digits d);;
             validate_item self web (sanitize_url url) manga_name (int_of_digits d) k) s1
        end
    end.
Proof.
  intros Hb. unfold load_url. rewrite Hb.
  rewrite run_bind. unfold browser_get at 1, modify at 1.
  rewrite run_bind.
  destruct (waiting_loading_page _ _ _) as [[] s1|e s1]; [|done].
  rewrite run_bind. unfold gets at 1. rewrite run_bind.
  unfold attempt, get_page_count.
  destruct (search_page_count (page_source (shown s1))); done.
Qed.

Lemma load_url_exit url k s :
  Str.blank url = false →
  ready false (web (length (history s)) (sanitize_url url)) = false →
  ∃ s', load_url self web url k s = Raise SystemExit s' ∧
        history s' = history s ++ [sanitize_url url] ∧
        dirs s' = dirs s ∧ zips s' = zips s ∧
        done_txt s' = done_txt s ∧ fail_txt s' = fail_txt s.
Proof.
  intros Hb Hr. rewrite load_url_index by done.
  edestruct (waiting_loading_page_not_ready false false) as (s' & -> & Hs'); [exact Hr|].
  exists s'. by destruct_and!.
Qed.

Lemma load_url_no_count url k s :
  Str.blank url = false →
  ready false (web (length (history s)) (sanitize_url url)) = true →
  search_page_count
    (page_source (web (length (history s)) (sanitize_url url))) = None →
  load_url self web url k s =
    Ret (Continue, k)
      (set_fail_txt (λ t, t +:+ sanitize_url url +:+ nl)
         (add_stdout ("Error: Failed " +:+ sanitize_url url)
            (index_shown web (sanitize_url url) s))).
Proof.
  intros Hb Hr Hc. rewrite load_url_index by done.
  rewrite waiting_loading_page_ready by done. simpl. by rewrite Hc.
Qed.

Lemma load_url_counted url k s d :
  Str.blank url = false →
  ready false (web (length (history s)) (sanitize_url url)) = true →
  search_page_count
    (page_source (web (length (history s)) (sanitize_url url))) = Some d →
  let u := sanitize_url url in
  let manga_name := Str.last_segment u in
  load_url self web url k s =
    (fetch_pages self web u manga_name (int_of_digits d);;
     validate_item self web u manga_name (int_of_digits d) k) (item_opened web u s).
Proof.
  intros Hb Hr Hc u manga_name. rewrite load_url_index by done.
  rewrite waiting_loading_page_ready by done. simpl. rewrite Hc.
  fold u. fold manga_name. unfold item_opened. fold manga_name.
  rewrite run_bind. unfold_M. simpl.
  by destruct (bool_decide _).
Qed.


(** *** An item without a page count *)


(** *** Fetching one page *)

Lemma fetch_page_skip url folder page_num d s :
  is_Some (page_file s folder page_num) →
  fetch_page self web url folder page_num d s = Ret true s.
Proof.
  intros Hp. unfold fetch_page, page_file in *. rewrite run_bind.
  unfold isfile at 1, gets at 1. by rewrite bool_decide_eq_true_2.
Qed.

(** The resizing step never raises: a fault of its scripts is caught. *)
Lemma resize_step s :
  try_except
    (width ← js_canvas_width (Z.of_nat (layers (shown s)) - 2);
     height ← js_canvas_height (Z.of_nat (layers (shown s)) - 2);
     if viewport self then set_viewport_size width height
     else set_window_size (width, height))
    JavascriptException (print js_error) s =
  Ret () (resized (viewport self) s).
Proof.
  unfold resized, resize_target, set_viewport_size. unfold_M.
  destruct (canvas_at (shown s) _) as [[w h]|] eqn:Hc; simpl; [|done].
  rewrite Hc. simpl.
  destruct (viewport self); simpl; [|done].
  destruct (decoration (shown s)) as [[dw dh]|] eqn:Hd; simpl; rewrite ?Hd; done.
Qed.

(** A page whose file is missing is fetched: navigation, wait, resizing,
    removal of the top layer, capture. *)
Lemma fetch_page_fetch url folder page_num (d : bool) s :
  page_file s folder page_num = None →
  let p := web (length (history s)) (reader_url url page_num) in
  ready true p = true →
  let s1 := set_in_frame true (add_slept (if d then 3 else 1)
              (navigate (reader_url url page_num) p s)) in
  fetch_page self web url folder page_num d s =
    if decide (0 < layers p) then
      Ret false (write_screenshot folder (png page_num)
                   (set_shown (without_layer p) (resized (viewport self) s1)))
    else Raise JavascriptException (resized (viewport self) s1).
Proof.
  intros Hp p Hr s1. unfold fetch_page, page_file in *. rewrite run_bind.
  unfold isfile at 1, gets at 1. rewrite bool_decide_eq_false_2 by (rewrite Hp; by inversion 1).
  rewrite run_bind. unfold browser_get at 1, modify at 1. fold (reader_url url page_num). fold p.
  rewrite run_bind, waiting_loading_page_ready by done. simpl andb. fold s1.
  rewrite run_bind. unfold gets at 1. rewrite run_bind, resize_step.
  assert (shown (resized (viewport self) s1) = p) as Hshown.
  { unfold resized. by destruct (resize_target _ _). }
  rewrite run_bind. unfold js_remove_layer. rewrite Hshown.
  change (shown s1) with p.
  destruct (decide (0 < layers p)).
  - rewrite decide_True by lia. done.
  - rewrite decide_False by lia. done.
Qed.

Lemma fetch_page_exit url folder page_num d s :
  page_file s folder page_num = None →
  ready true (web (length (history s)) (reader_url url page_num)) = false →
  ∃ s', fetch_page self web url folder page_num d s = Raise SystemExit s' ∧
        history s' = history s ++ [reader_url url page_num] ∧
        dirs s' = dirs s ∧ zips s' = zips s ∧
        done_txt s' = done_txt s ∧ fail_txt s' = fail_txt s.
Proof.
  intros Hp Hr. unfold fetch_page, page_file in *. rewrite run_bind.
  unfold isfile at 1, gets at 1. rewrite bool_decide_eq_false_2 by (rewrite Hp; by inversion 1).
  rewrite run_bind. unfold browser_get at 1, modify at 1. rewrite run_bind.
  edestruct (waiting_loading_page_not_ready true d) as (s' & -> & Hs'); [exact Hr|].
  exists s'. by destruct_and!.
Qed.

Lemma fetch_page_lists url folder page_num d :
  unchanged lists (fetch_page self web url folder page_num d).
Proof.
  intros s. destruct (page_file s folder page_num) eqn:Hp.
  { by rewrite fetch_page_skip. }
  destruct (ready true (web (length (history s)) (reader_url url page_num))) eqn:Hr.
  - rewrite fetch_page_fetch by done. unfold resized, write_screenshot.
    repeat (case_match; simpl; try done).
  - destruct (fetch_page_exit url folder page_num d s Hp Hr) as (s' & -> & Hs').
    unfold lists. simpl. destruct_and!. congruence.
Qed.

Lemma fetch_pages_lists url folder n : unchanged lists (fetch_pages self web url folder n).
Proof. apply unchanged_for_in. intros. apply fetch_page_lists. Qed.
(** *** A fault while resizing *)

(** C9, as amended: in every page capture, when a script faults while
    the canvas size is read or the viewport is resized, the fault is
    caught and logged, once, the window keeps the size it had and the
    resizing is not tried again: the resizing step returns, and whatever
    the capture does next, the window is as it was, the log has that one
    line more and the reader page was visited once. If the frame has a
    layer to remove, the page is then captured at the size the window
    had, and the item and the run go on; if it has none, the script that
    removes the top layer faults next, outside the [try]. *)
Theorem resize_fault_is_not_fatal (url folder : string) (page_num : nat)
    (delay : bool) (s : state) (files : gmap string size) :
  dirs s !! folder = Some files →
  files !! png page_num = None →
  let p := web (length (history s)) (reader_url url page_num) in
  ready true p = true →
  canvas_at p (Z.of_nat (layers p) - 2) = None ∨
    (viewport self = true ∧ decoration p = None) →
  let r := fetch_page self web url folder page_num delay s in
  (∀ s1, shown s1 = p →
     try_except
       (width ← js_canvas_width (Z.of_nat (layers p) - 2);
        height ← js_canvas_height (Z.of_nat (layers p) - 2);
        if viewport self then set_viewport_size width height
        else set_window_size (width, height))
       JavascriptException (print js_error) s1 =
     Ret () (add_stdout js_error s1)) ∧
  window (final r) = window s ∧
  stdout (final r) = stdout s ++ [js_error] ∧
  history (final r) = history s ++ [reader_url url page_num] ∧
  done_txt (final r) = done_txt s ∧ fail_txt (final r) = fail_txt s ∧
  (0 < layers p →
   ∃ s', r = Ret false s' ∧
         page_file s' folder page_num = Some (shot p (window s))) ∧
  (layers p = 0 →
   raised r = Some JavascriptException ∧
   page_file (final r) folder page_num = None).
Proof.
  intros Hdir Hfile p Hready Hfault r.
  assert (resize_target (viewport self) p = None) as Htarget.
  { unfold resize_target. destruct Hfault as [->|[-> Hd]]; [done|].
    destruct (canvas_at p _); simpl; [by rewrite Hd|done]. }
  split.
  { intros s1 Hs1. pose proof (resize_step s1) as Hstep. rewrite Hs1 in Hstep.
    rewrite Hstep. unfold resized. by rewrite Hs1, Htarget. }
  unfold r. rewrite fetch_page_fetch; [|by unfold page_file; rewrite Hdir|done].
  fold p. unfold resized. simpl shown. rewrite Htarget.
  destruct (decide (0 < layers p)) as [Hlayers|Hlayers].
  - unfold write_screenshot, page_file. simpl. rewrite Hdir. simpl.
    split_and!; [done..| |intros ?; lia].
    intros _. eexists. split; [done|].
    simpl. rewrite lookup_insert_eq. simpl. by rewrite lookup_insert_eq.
  - unfold page_file. simpl. rewrite Hdir. simpl.
    split_and!; [done..|intros ?; lia|done].
Qed.

(** *** Checking and recording an item *)

Lemma png_inj p q : png p = png q → p = q.
Proof.
  unfold png. intros H. apply (inj pretty).
  revert H. generalize (pretty p) (pretty q). intros a.
  induction a as [|c a IH]; intros [|c' b]; rewrite ?app_cons, ?app_empty_l; try done.
  - intros [= <- H]. by destruct b as [|? [|? [|? [|? ?]]]].
  - intros [= -> H]. by destruct a as [|? [|? [|? [|? ?]]]].
  - intros [= -> H]. f_equal. by apply IH.
Qed.

(** The validation loop opens every page file of the list and reports
    whether one of them is undersized; it changes nothing. *)
Lemma check_loop folder files pages failed s :
  dirs s !! folder = Some files →
  (∀ p, p ∈ pages → is_Some (files !! png p)) →
  for_in pages (check_page folder) failed s =
    Ret (failed || existsb (λ p, from_option undersized false (files !! png p)) pages) s.
Proof.
  intros Hdir. revert failed. induction pages as [|p pages IH]; intros failed Hall; simpl.
  { by rewrite orb_false_r. }
  rewrite run_bind. unfold check_page at 1. rewrite run_bind.
  unfold image_open at 1. rewrite Hdir. simpl.
  destruct (Hall p) as [img Himg]; [left|]. rewrite Himg. simpl.
  rewrite IH by (intros; apply Hall; by right).
  f_equal. fold (undersized img). destruct (undersized img), failed; done.
Qed.

Lemma check_pages_all folder files n s :
  dirs s !! folder = Some files → all_pages files n →
  check_pages folder n s = Ret (some_undersized files n) s.
Proof.
  intros Hdir Hall. unfold check_pages. erewrite check_loop; [done..|].
  intros p [? ?]%elem_of_seq. apply Hall. lia.
Qed.

Lemma check_pages_pure folder n s : final (check_pages folder n s) = s.
Proof.
  unfold check_pages. generalize false (seq 1 n). intros failed pages. revert failed.
  induction pages as [|p pages IH]; intros failed; simpl; [done|].
  rewrite run_bind. unfold check_page at 1. rewrite run_bind. unfold image_open at 1.
  destruct (dirs s !! folder ≫= _); simpl; [|done]. apply IH.
Qed.

Lemma lookup_without_pages files pages file :
  without_pages files pages !! file =
    if decide (file ∈ png <$> pages) then None else files !! file.
Proof.
  revert files. induction pages as [|p pages IH]; intros files.
  { case_decide as Hin; [|done]. by apply elem_of_nil in Hin. }
  change (without_pages files (p :: pages))
    with (without_pages (delete (png p) files) pages).
  rewrite IH, fmap_cons.
  destruct (decide (file ∈ png <$> pages)) as [Hin|Hin].
  { rewrite decide_True; [done|]. by right. }
  destruct (decide (file = png p)) as [->|Hne].
  - rewrite lookup_delete_eq. rewrite decide_True; [done|]. left.
  - rewrite lookup_delete_ne by done. rewrite decide_False; [done|].
    rewrite elem_of_cons. tauto.
Qed.

Lemma without_pages_empty files n :
  only_pages files n → without_pages files (seq 1 n) = ∅.
Proof.
  intros Honly. apply map_eq. intros file.
  rewrite lookup_without_pages, lookup_empty. case_decide as Hin; [done|].
  destruct (files !! file) eqn:Hf; [|done]. destruct (Honly file) as (p & Hp & ->); [by eexists|].
  destruct Hin. apply list_elem_of_fmap. exists p. split; [done|]. apply elem_of_seq. lia.
Qed.

(** The loop of [remove_manga_folder] removes the page files that are
    there and nothing else. *)
Lemma remove_loop folder pages s :
  ∃ s',
    for_in pages
      (λ page_num (_ : ()),
         there ← isfile folder (png page_num);
         if there : bool then os_remove folder (png page_num) else mret ()) () s
      = Ret () s' ∧
    dirs s' = alter (λ files, without_pages files pages) folder (dirs s) ∧
    zips s' = zips s ∧ lists s' = lists s ∧ history s' = history s ∧
    stdout s' = stdout s.
Proof.
  revert s. induction pages as [|p pages IH]; intros s; simpl.
  { exists s. split_and!; try done. symmetry. by apply alter_id. }
  rewrite run_bind, run_bind. unfold isfile at 1, gets at 1.
  case_bool_decide as Hthere.
  - unfold os_remove at 1, modify at 1. cbv beta iota.
    destruct (IH (set_dirs (λ d, alter (delete (png p)) folder d) s))
      as (s' & -> & Hd & Hrest).
    exists s'. split; [done|]. split; [|done].
    rewrite Hd. simpl. by rewrite alter_alter_eq.
  - unfold mret at 1, M_ret at 1. cbv beta iota.
    destruct (IH s) as (s' & -> & Hd & Hrest). exists s'. split; [done|]. split; [|done].
    rewrite Hd. apply map_eq. intros f. destruct (decide (f = folder)) as [->|?].
    + rewrite !lookup_alter_eq. destruct (dirs s !! folder) as [files|] eqn:Hf; simpl; [|done].
      simpl in Hthere. rewrite delete_id; [done|].
      by apply eq_None_not_Some.
    + by rewrite !lookup_alter_ne.
Qed.

(** [remove_manga_folder] on a directory that holds page files only. *)
Lemma remove_manga_folder_only_pages folder n files s :
  dirs s !! folder = Some files → only_pages files n →
  ∃ s',
    remove_manga_folder folder n s = Ret () s' ∧
    dirs s' = delete folder (dirs s) ∧
    zips s' = zips s ∧ lists s' = lists s ∧ history s' = history s ∧
    stdout s' = stdout s.
Proof.
  intros Hdir Honly. unfold remove_manga_folder. cbv zeta. rewrite run_bind.
  destruct (remove_loop folder (seq 1 n) s) as (s1 & -> & Hd & Hz & Hl & Hh & Ho).
  unfold os_rmdir. rewrite Hd, lookup_alter_eq, Hdir. simpl.
  rewrite decide_True by by apply without_pages_empty.
  eexists. split; [done|]. simpl. rewrite Hd, delete_alter_eq. done.
Qed.

(** [remove_manga_folder] on a directory that holds something else:
    the page files go, the directory stays, [os.rmdir] raises. *)
Lemma remove_manga_folder_stray folder n files s :
  dirs s !! folder = Some files → without_pages files (seq 1 n) ≠ ∅ →
  ∃ s',
    remove_manga_folder folder n s = Raise OSError s' ∧
    dirs s' = <[folder := without_pages files (seq 1 n)]> (dirs s) ∧
    zips s' = zips s ∧ lists s' = lists s.
Proof.
  intros Hdir Hstray. unfold remove_manga_folder. cbv zeta. rewrite run_bind.
  destruct (remove_loop folder (seq 1 n) s) as (s1 & -> & Hd & Hz & Hl & Hh & Ho).
  unfold os_rmdir. rewrite Hd, lookup_alter_eq, Hdir. simpl.
  rewrite decide_False by done.
  eexists. split; [done|]. split_and!; try done.
  rewrite Hd. apply map_eq. intros f. destruct (decide (f = folder)) as [->|?].
  - by rewrite lookup_alter_eq, lookup_insert_eq, Hdir.
  - by rewrite lookup_alter_ne, lookup_insert_ne.
Qed.

(** The loop that fills the archive. *)
Lemma zip_loop zipname folder files pages members s :
  dirs s !! folder = Some files →
  zips s !! zipname = Some members →
  (∀ p, p ∈ pages → is_Some (files !! png p)) →
  ∃ s',
    for_in pages (λ page_num (_ : ()), zip_write zipname folder (png page_num)) () s
      = Ret () s' ∧
    zips s' =
      <[zipname := members ++
          omap (λ p, (λ img, (png p, img)) <$> files !! png p) pages]> (zips s) ∧
    dirs s' = dirs s ∧ lists s' = lists s ∧ history s' = history s ∧
    stdout s' = stdout s.
Proof.
  intros Hdir. revert members s Hdir.
  induction pages as [|p pages IH]; intros members s Hdir Hzip Hall; simpl.
  { exists s. split_and!; try done. by rewrite app_nil_r, insert_id. }
  rewrite run_bind. unfold zip_write at 1. rewrite Hdir. simpl.
  destruct (Hall p) as [img Himg]; [left|]. rewrite Himg. simpl.
  edestruct (IH (members ++ [(png p, img)])) as (s' & -> & Hz & Hd & Hrest);
    [done|by simpl; rewrite lookup_alter_eq, Hzip|intros; apply Hall; by right|].
  exists s'. split; [done|]. split; [|by rewrite Hd]. rewrite Hz. simpl.
  rewrite <- (assoc (++)). simpl.
  apply map_eq. intros z. destruct (decide (z = zipname)) as [->|?].
  - by rewrite !lookup_insert_eq.
  - by rewrite !lookup_insert_ne, lookup_alter_ne by done.
Qed.

Lemma reinit_browser_run s :
  ∃ s', reinit_browser self web s = Ret () s' ∧
        dirs s' = dirs s ∧ zips s' = zips s ∧ lists s' = lists s ∧
        history s' = history s ++ [LOGIN_URL] ∧ stdout s' = stdout s.
Proof. eexists. by split. Qed.

(** An item found undersized, in a directory of page files only. *)
Lemma record_item_failed url name n k files s :
  dirs s !! name = Some files → only_pages files n →
  ∃ s',
    record_item self web url name n k true s = Ret (Continue, k) s' ∧
    fail_txt s' = fail_txt s +:+ url +:+ nl ∧ done_txt s' = done_txt s ∧
    dirs s' = delete name (dirs s) ∧ zips s' = zips s ∧
    history s' = history s ++ [LOGIN_URL].
Proof.
  intros Hdir Honly. unfold record_item. rewrite run_bind.
  unfold add_failed at 1. unfold_M. simpl.
  edestruct (remove_manga_folder_only_pages name n files) as (s1 & -> & Hd & Hz & Hl & Hh & Ho);
    [|done|]; [done|].
  simpl. eexists. split; [done|]. simpl. rewrite Hd, Hz, Hh.
  injection Hl as -> ->. done.
Qed.

(** An item found valid, kept as a directory. *)
Lemma record_item_done url name n k s :
  pack self = false →
  record_item self web url name n k false s =
    Ret (cap_reached self (k + 1), (k + 1)%Z)
        (set_done_txt (λ t, t +:+ url +:+ nl) s).
Proof.
  intros Hpack. unfold record_item, cap_reached. rewrite Hpack. unfold add_done. unfold_M.
  simpl. destruct (max_ self); [case_bool_decide|]; done.
Qed.

(** An item found valid, packed from a directory of page files only. *)
Lemma record_item_packed url name n k files s :
  pack self = true →
  dirs s !! name = Some files → all_pages files n → only_pages files n →
  ∃ s',
    record_item self web url name n k false s =
      Ret (cap_reached self (k + 1), (k + 1)%Z) s' ∧
    done_txt s' = done_txt s +:+ url +:+ nl ∧ fail_txt s' = fail_txt s ∧
    dirs s' = delete name (dirs s) ∧
    zips s' = <[name +:+ ".cbz" := zip_members files n]> (zips s) ∧
    history s' = history s.
Proof.
  intros Hpack Hdir Hall Honly. unfold record_item. rewrite Hpack. cbv zeta.
  rewrite !run_bind. unfold zip_open at 1, modify at 1. rewrite run_bind.
  edestruct (zip_loop (name +:+ ".cbz") name files (seq 1 n) [])
    as (s1 & -> & Hz1 & Hd1 & Hl1 & Hh1 & Ho1);
    [| |intros p [? ?]%elem_of_seq; apply Hall; lia|]; [done|by simpl; rewrite lookup_insert_eq|].
  rewrite run_bind. unfold zip_exists at 1, gets at 1. rewrite bool_decide_eq_true_2
    by (rewrite Hz1, lookup_insert_eq; by eexists).
  edestruct (remove_manga_folder_only_pages name n files s1)
    as (s2 & -> & Hd2 & Hz2 & Hl2 & Hh2 & Ho2); [by rewrite Hd1|done|].
  unfold add_done, cap_reached. unfold_M.
  eexists. split; [by destruct (max_ self); [case_bool_decide|]|].
  simpl. rewrite Hd2, Hz2, Hz1, Hd1, Hh2, Hh1. simpl.
  injection Hl2 as -> ->. injection Hl1 as -> ->.
  rewrite insert_insert_eq. done.
Qed.
(** C1, as amended: of an item that reached the validation step with
    all its page files on disk, in a directory named by an entry name of
    the root directory (the last segment of its identifier, being
    neither empty nor [.] nor [..]),
    - if no page image is below the threshold in either dimension and
      packaging is off, the identifier is appended to the completed list
      and the directory stays as it is;
    and, provided the directory holds nothing but those page files,
    - if no page image is undersized and packaging is on, and no
      directory has the name of the archive, the identifier is appended
      to the completed list, the archive holds every page and the
      directory is gone;
    - if a page image is undersized, the identifier is appended to the
      failed list and the directory and every page file are gone. *)
Theorem validation_outcome (url name : string) (n : nat) (k : Z) (s : state)
    (files : gmap string size) :
  entry_name name →
  dirs s !! name = Some files →
  all_pages files n →
  (some_undersized files n = false → pack self = false →
   ∃ s',
     validate_item self web url name n k s =
       Ret (cap_reached self (k + 1), (k + 1)%Z) s' ∧
     done_txt s' = done_txt s +:+ url +:+ nl ∧ fail_txt s' = fail_txt s ∧
     dirs s' = dirs s ∧ zips s' = zips s) ∧
  (some_undersized files n = false → pack self = true → only_pages files n →
   dirs s !! (name +:+ ".cbz") = None →
   ∃ s',
     validate_item self web url name n k s =
       Ret (cap_reached self (k + 1), (k + 1)%Z) s' ∧
     done_txt s' = done_txt s +:+ url +:+ nl ∧ fail_txt s' = fail_txt s ∧
     dirs s' = delete name (dirs s) ∧
     zips s' = <[name +:+ ".cbz" := zip_members files n]> (zips s)) ∧
  (some_undersized files n = true → only_pages files n →
   ∃ s',
     validate_item self web url name n k s = Ret (Continue, k) s' ∧
     fail_txt s' = fail_txt s +:+ url +:+ nl ∧ done_txt s' = done_txt s ∧
     dirs s' = delete name (dirs s) ∧ zips s' = zips s).
Proof.
  intros _ Hdir Hall. unfold validate_item.
  split_and!; intros Hsize; rewrite run_bind, (check_pages_all _ files) by done;
    rewrite Hsize.
  - intros Hpack. rewrite record_item_done by done. eexists. by split.
  - intros Hpack Honly _.
    destruct (record_item_packed url name n k files s Hpack Hdir Hall Honly)
      as (s' & ? & ? & ? & ? & ? & ?).
    by exists s'.
  - intros Honly.
    destruct (record_item_failed url name n k files s Hdir Honly)
      as (s' & ? & ? & ? & ? & ? & ?).
    by exists s'.
Qed.

(** *** How an item can end once its pages are fetched *)

Lemma remove_manga_folder_never_exits folder n : never_exits (remove_manga_folder folder n).
Proof.
  unfold remove_manga_folder. apply never_exits_bind; [|intros; untouched].
  apply never_exits_for_in. intros; untouched.
Qed.

Lemma check_pages_never_exits folder n : never_exits (check_pages folder n).
Proof. apply never_exits_for_in. intros x acc. unfold check_page. untouched. Qed.

Lemma add_failed_run url s :
  ∃ s', add_failed url s = Ret () s' ∧
        lists s' = (done_txt s, fail_txt s +:+ url +:+ nl) ∧
        dirs s' = dirs s ∧ zips s' = zips s ∧ history s' = history s.
Proof. eexists. by split. Qed.

Lemma record_item_recorded url name n k failed s :
  recorded self url k s (record_item self web url name n k failed s).
Proof.
  unfold record_item, recorded. destruct failed.
  - rewrite run_bind. destruct (add_failed_run url s) as (s1 & -> & Hl1 & _).
    rewrite run_bind.
    pose proof (remove_manga_folder_lists name n s1) as Hl2.
    pose proof (remove_manga_folder_never_exits name n s1) as He2.
    destruct (remove_manga_folder name n s1) as [[] s2|e s2]; simpl in *.
    + right; left. eexists. split; [done|]. simpl. by rewrite <- Hl1, <- Hl2.
    + right; right. exists e, s2. split_and!; [done|congruence|].
      right. by rewrite <- Hl1, <- Hl2.
  - rewrite run_bind.
    set (packing := if pack self then _ else _).
    assert (unchanged lists packing ∧ never_exits packing) as [Hl He].
    { unfold packing. destruct (pack self); [|by split]. cbv zeta. split.
      - apply unchanged_bind; [intros; untouched|intros _].
        apply unchanged_bind; [apply unchanged_for_in; intros; untouched|intros _].
        apply unchanged_bind; [intros; untouched|intros []; [|done]].
        apply remove_manga_folder_lists.
      - apply never_exits_bind; [intros; untouched|intros _].
        apply never_exits_bind; [apply never_exits_for_in; intros; untouched|intros _].
        apply never_exits_bind; [intros; untouched|intros []; [|done]].
        apply remove_manga_folder_never_exits. }
    specialize (Hl s). specialize (He s).
    destruct (packing s) as [[] s1|e s1]; simpl in *.
    + left. unfold add_done, cap_reached. unfold_M. simpl. eexists.
      split; [by destruct (max_ self); [case_bool_decide|]|].
      unfold lists in *. simpl. by injection Hl as -> ->.
    + right; right. exists e, s1. split_and!; [done|congruence|by left].
Qed.

Lemma validate_item_recorded url name n k s :
  recorded self url k s (validate_item self web url name n k s).
Proof.
  unfold validate_item. rewrite run_bind.
  pose proof (check_pages_pure name n s) as Hs.
  pose proof (check_pages_never_exits name n s) as He.
  destruct (check_pages name n s) as [failed s1|e s1]; simpl in *; subst s1.
  - apply record_item_recorded.
  - right; right. exists e, s. split_and!; [done|congruence|by left].
Qed.

(** *** Resuming an item *)







(** *** The main loop *)

Lemma recorded_same_lists url k s1 s2 r :
  lists s1 = lists s2 → recorded self url k s1 r → recorded self url k s2 r.
Proof.
  unfold recorded, lists. intros [= Hd Hf]. by rewrite Hd, Hf.
Qed.

Lemma item_opened_lists u s : lists (item_opened web u s) = lists s.
Proof. unfold item_opened. simpl. by case_bool_decide. Qed.

(** How the body of the main loop can end. *)
Lemma load_url_cases url k s :
  let r := load_url self web url k s in
  (Str.blank url = true ∧ r = Ret (Continue, k) s) ∨
  (Str.blank url = false ∧
   ((∃ e s', r = Raise e s' ∧ lists s' = lists s) ∨
    recorded self (sanitize_url url) k s r)).
Proof.
  simpl. destruct (Str.blank url) eqn:Hb.
  { left. by rewrite load_url_blank. }
  right. split; [done|].
  set (u := sanitize_url url).
  destruct (ready false (web (length (history s)) u)) eqn:Hr.
  2: { left. destruct (load_url_exit url k s Hb Hr) as (s' & -> & _ & _ & _ & Hd & Hf).
       exists SystemExit, s'. split; [done|]. unfold lists. by rewrite Hd, Hf. }
  destruct (search_page_count (page_source (web (length (history s)) u))) as [d|] eqn:Hc.
  2: { right. right. left. rewrite load_url_no_count by done. eexists. by split. }
  rewrite (load_url_counted url k s d) by done. fold u. rewrite run_bind.
  pose proof (fetch_pages_lists u (Str.last_segment u) (int_of_digits d)
                (item_opened web u s)) as Hl.
  rewrite item_opened_lists in Hl.
  destruct (fetch_pages _ _ _ _ _ _) as [b s1|e s1]; simpl in Hl.
  - right. eapply recorded_same_lists; [exact Hl|]. apply validate_item_recorded.
  - left. by exists e, s1.
Qed.


Lemma lines_cons id ids : lines (id :: ids) = id +:+ nl +:+ lines ids.
Proof. done. Qed.

Lemma lines_app ids1 ids2 : lines (ids1 ++ ids2) = lines ids1 +:+ lines ids2.
Proof.
  induction ids1 as [|id ids1 IH]; [done|].
  by rewrite <- app_comm_cons, !lines_cons, IH, !app_assoc.
Qed.

(** What a run of the main loop adds to the two lists: the canonical
    forms of the first [n] non-blank entries, each to one list. *)
Lemma main_loop_lists urls k s :
  let r := for_in_break urls (load_url self web) k s in
  ∃ done_new fail_new n,
    lists (final r) = (done_txt s +:+ lines done_new, fail_txt s +:+ lines fail_new) ∧
    done_new ++ fail_new ≡ₚ
      sanitize_url <$> take n (filter (λ u, Str.blank u = false) urls) ∧
    match r with
    | Ret (Continue, _) _ =>
        length (filter (λ u, Str.blank u = false) urls) ≤ n
    | Ret (Break, k') _ => ∃ m, max_ self = Some m ∧ (m ≤ k')%Z
    | Raise _ _ => True
    end.
Proof.
  revert k s. induction urls as [|url urls IH]; intros k s; simpl.
  { exists [], [], 0. simpl. by rewrite !app_empty_r. }
  rewrite run_bind.
  destruct (load_url_cases url k s) as [[Hb ->]|[Hb Hcases]]; simpl.
  { destruct (IH k s) as (dn & fn & n & Hl & Hp & Hr). exists dn, fn, n.
    rewrite filter_cons_False by (by rewrite Hb). done. }
  rewrite filter_cons_True by done.
  destruct Hcases as [(e & s' & -> & Hl)|[(s' & -> & Hl)|[(s' & -> & Hl)|(e & s' & -> & _ & Hl)]]].
  - exists [], [], 0. simpl. rewrite !app_empty_r. by rewrite Hl.
  - simpl. unfold cap_reached. destruct (max_ self) as [m|] eqn:Hm; [case_bool_decide|]; simpl.
    + exists [sanitize_url url], [], 1. simpl. rewrite Hl, !app_empty_r, ?take_0.
      split_and!; [done..|]. by exists m.
    + destruct (IH (k + 1)%Z s') as (dn & fn & n & Hl' & Hp & Hr).
      exists (sanitize_url url :: dn), fn, (S n). split_and!; [|by simpl; rewrite Hp|].
      * rewrite Hl'. injection Hl as -> ->. by rewrite lines_cons, !app_assoc.
      * destruct (for_in_break _ _ _ _) as [[[] ?] ?|]; simpl in *; [lia|done..].
    + destruct (IH (k + 1)%Z s') as (dn & fn & n & Hl' & Hp & Hr).
      exists (sanitize_url url :: dn), fn, (S n). split_and!; [|by simpl; rewrite Hp|].
      * rewrite Hl'. injection Hl as -> ->. by rewrite lines_cons, !app_assoc.
      * destruct (for_in_break _ _ _ _) as [[[] ?] ?|]; simpl in *; [lia|done..].
  - simpl. destruct (IH k s') as (dn & fn & n & Hl' & Hp & Hr).
    exists dn, (sanitize_url url :: fn), (S n). split_and!.
    + rewrite Hl'. injection Hl as -> ->. by rewrite lines_cons, !app_assoc.
    + simpl. by rewrite <- Hp, Permutation_middle.
    + destruct (for_in_break _ _ _ _) as [[[] ?] ?|]; simpl in *; [lia|done..].
  - destruct Hl as [Hl|Hl].
    + exists [], [], 0. simpl. rewrite !app_empty_r. by rewrite Hl.
    + exists [], [sanitize_url url], 1. simpl. rewrite Hl, !app_empty_r, ?take_0. done.
Qed.


(** C2, as amended: in one run of the main loop over a queue of single
    lines, the completed and the failed file being empty or ending with
    a line feed, the lines the run appends to the two files are the
    canonical forms of the first [n] entries of the queue that are not
    blank, one line for each entry, in one of the two files. When the
    run goes through the whole queue these are all its entries that are
    not blank; when it stops earlier it does so at the item cap or with
    an exception (the exit of a failed wait among them), and the entries
    not reached are in neither list. No identifier is appended twice or
    to both lists when the canonical forms of the entries differ from
    one another, which the queue does not see to: two entries of one
    canonical form are both recorded under it. *)
Theorem each_identifier_recorded_once (urls : list string) (s : state) :
  Forall (λ u, plain_line u = true) urls →
  terminated (done_txt s) = true → terminated (fail_txt s) = true →
  let r := load_all self web urls s in
  let entries := filter (λ u, Str.blank u = false) urls in
  ∃ done_new fail_new n,
    read_list (done_txt (final r)) = read_list (done_txt s) ++ done_new ∧
    read_list (fail_txt (final r)) = read_list (fail_txt s) ++ fail_new ∧
    done_new ++ fail_new ≡ₚ sanitize_url <$> take n entries ∧
    (NoDup (sanitize_url <$> entries) → NoDup (done_new ++ fail_new)) ∧
    match r with
    | Ret (Continue, _) _ => length entries ≤ n
    | Ret (Break, k) _ => ∃ m, max_ self = Some m ∧ (m ≤ k)%Z
    | Raise _ _ => True
    end.
Proof.
  intros Hplain Hd Hf. simpl.
  change (load_all self web urls s)
    with (for_in_break urls (load_url self web) 0%Z (set_window (default_display self) s)).
  destruct (main_loop_lists urls 0 (set_window (default_display self) s))
    as (dn & fn & n & Hl & Hp & Hr).
  simpl in Hl, Hr.
  set (entries := filter (λ u, Str.blank u = false) urls) in *.
  assert (Forall (λ id, Str.one_line id = true) (dn ++ fn)) as Hone.
  { apply Forall_forall. intros x. rewrite Hp.
    intros (u & -> & Hu)%list_elem_of_fmap.
    apply sanitize_url_one_line, plain_line_one_line.
    apply (subseteq_take n entries), list_elem_of_filter in Hu as [_ Hu].
    rewrite Forall_forall in Hplain. by apply Hplain. }
  apply Forall_app in Hone as [Hdn Hfn].
  destruct (read_list_lines (done_txt s) dn Hd Hdn) as [Hrd _].
  destruct (read_list_lines (fail_txt s) fn Hf Hfn) as [Hrf _].
  injection Hl as Hdone Hfail.
  exists dn, fn, n. rewrite Hdone, Hfail. split_and!; [done..| |exact Hr].
  intros Hnd. rewrite Hp, fmap_take.
  eapply sublist_NoDup; [exact Hnd|apply sublist_take].
Qed.

(** *** The wait as a whole *)

(** X9: [waiting_loading_page] sleeps before it looks at the page: three
    units of [wait] for a reader page loaded with the delay flag, one
    unit otherwise, whether or not the page turns out ready. A page that
    is ready leaves nothing else behind than the frame the browser is
    in. A page that is not ready ends the program by [SystemExit], after
    the message for a missing frame or for the timeout and the line
    [Program exit.] were printed. *)
Theorem wait_sleeps_then_checks (is_reader_page should_add_delay : bool) (s : state) :
  let r := waiting_loading_page is_reader_page should_add_delay s in
  let units := if is_reader_page && should_add_delay then 3 else 1 in
  slept (final r) = slept s + units ∧
  match r with
  | Ret _ s' =>
      ready is_reader_page (shown s) = true ∧
      s' = set_in_frame is_reader_page (add_slept units s)
  | Raise e s' =>
      e = SystemExit ∧
      ready is_reader_page (shown s) = false ∧
      stdout s' =
        stdout s ++
          [if is_reader_page && negb (iframe_present (shown s))
           then iframe_error else timeout_error;
           "Program exit."]
  end.
Proof.
  unfold waiting_loading_page, ready.
  destruct (iframe_present (shown s)) eqn:Hi, (page_view_present (shown s)) eqn:Hp,
    (icon_present (shown s)) eqn:Hc;
    destruct is_reader_page, should_add_delay; unfold_M;
    repeat (simpl; rewrite ?Hi, ?Hp, ?Hc);
    rewrite <- ?(assoc (++)); done.
Qed.

(** *** Removing an item directory, case by case *)

Lemma remove_loop_missing folder pages s :
  dirs s !! folder = None →
  for_in pages
    (λ page_num (_ : ()),
       there ← isfile folder (png page_num);
       if there : bool then os_remove folder (png page_num) else mret ()) () s
    = Ret () s.
Proof.
  intros Hdir. induction pages as [|p pages IH]; [done|].
  rewrite for_in_cons, run_bind, run_bind. unfold isfile at 1, gets at 1.
  rewrite Hdir. simpl. exact IH.
Qed.

Lemma remove_loop_urls folder pages :
  unchanged urls_txt
    (for_in pages
       (λ page_num (_ : ()),
          there ← isfile folder (png page_num);
          if there : bool then os_remove folder (png page_num) else mret ()) ()).
Proof. apply unchanged_for_in. intros; untouched. Qed.

(** X10: [remove_manga_folder], for a folder that is an entry of the
    root directory under a name no archive has, has three outcomes.
    When the directory is not there, [os.rmdir] raises
    [FileNotFoundError] and nothing has changed. When the directory
    holds nothing besides files of the pages [1..page_count], whether or
    not each of them is there, these files and the directory are
    removed. When it holds anything else, the page files are removed,
    the other entries and the directory stay, and [os.rmdir] raises
    [OSError]. No other directory, no archive and no list is touched. *)
Theorem remove_manga_folder_outcomes (manga_folder : string) (page_count : nat)
    (s : state) :
  entry_name manga_folder →
  zips s !! manga_folder = None →
  match dirs s !! manga_folder with
  | None =>
      remove_manga_folder manga_folder page_count s = Raise FileNotFoundError s
  | Some files =>
      let others := without_pages files (seq 1 page_count) in
      (∀ file, others !! file =
                 if decide (file ∈ png <$> seq 1 page_count) then None
                 else files !! file) ∧
      ∃ s',
        remove_manga_folder manga_folder page_count s =
          (if decide (others = ∅) then Ret () s' else Raise OSError s') ∧
        dirs s' =
          (if decide (others = ∅) then delete manga_folder (dirs s)
           else <[manga_folder := others]> (dirs s)) ∧
        zips s' = zips s ∧ lists s' = lists s ∧ urls_txt s' = urls_txt s ∧
        history s' = history s
  end.
Proof.
  intros _ _.
  destruct (dirs s !! manga_folder) as [files|] eqn:Hdir.
  - split; [intros file; apply lookup_without_pages|].
    unfold remove_manga_folder. cbv zeta. rewrite run_bind.
    destruct (remove_loop manga_folder (seq 1 page_count) s)
      as (s1 & Hrun & Hd & Hz & Hl & Hh & Ho).
    assert (urls_txt s1 = urls_txt s) as Hu.
    { pose proof (remove_loop_urls manga_folder (seq 1 page_count) s) as Hkeep.
      by rewrite Hrun in Hkeep. }
    rewrite Hrun. unfold os_rmdir. rewrite Hd, lookup_alter_eq, Hdir. simpl.
    case_decide as He.
    + eexists. split; [done|]. simpl. by rewrite Hd, delete_alter_eq.
    + eexists. split; [done|]. split_and!; try done.
      rewrite Hd. apply map_eq. intros f. destruct (decide (f = manga_folder)) as [->|?].
      * by rewrite lookup_alter_eq, lookup_insert_eq, Hdir.
      * by rewrite lookup_alter_ne, lookup_insert_ne.
  - unfold remove_manga_folder. cbv zeta.
    rewrite run_bind, remove_loop_missing by done.
    unfold os_rmdir. by rewrite Hdir.
Qed.

(** *** What the main loop never writes *)

(** A call that is short enough to run through all its cases, for
    [files_kept]. *)
Ltac kept :=
  let s := fresh "s" in
  let Hu := fresh "Hu" in
  let Hz := fresh "Hz" in
  intros s [Hu Hz]; unfold_M; simpl;
  repeat (case_match; simplify_eq; simpl);
  (split; [done|first [done | intros; congruence]]).

Lemma waiting_loading_page_kept u z r d :
  keeps (files_kept self u z) (waiting_loading_page r d).
Proof. unfold waiting_loading_page. destruct r, d; kept. Qed.

Lemma set_viewport_size_kept u z w h :
  keeps (files_kept self u z) (set_viewport_size w h).
Proof. unfold set_viewport_size. kept. Qed.

Lemma fetch_page_kept u z url folder page_num d :
  keeps (files_kept self u z) (fetch_page self web url folder page_num d).
Proof.
  unfold fetch_page. cbv zeta.
  apply keeps_bind; [kept|intros []; [apply keeps_ret|]].
  apply keeps_bind; [kept|intros _].
  apply keeps_bind; [apply waiting_loading_page_kept|intros _].
  apply keeps_bind; [kept|intros n].
  apply keeps_bind.
  { apply keeps_try_except; [|kept].
    apply keeps_bind; [kept|intros w]. apply keeps_bind; [kept|intros h].
    destruct (viewport self); [apply set_viewport_size_kept|kept]. }
  intros _. apply keeps_bind; [kept|intros _].
  apply keeps_bind; [|intros; apply keeps_ret].
  intros s [Hu Hz]. unfold save_screenshot, write_screenshot. unfold_M.
  destruct (dirs s !! folder); done.
Qed.

Lemma remove_manga_folder_kept u z folder n :
  keeps (files_kept self u z) (remove_manga_folder folder n).
Proof.
  unfold remove_manga_folder.
  apply keeps_bind; [|intros; kept].
  apply keeps_for_in. intros p acc _. kept.
Qed.

Lemma record_item_kept u z url name n k failed :
  keeps (files_kept self u z) (record_item self web url name n k failed).
Proof.
  unfold record_item. cbv zeta. destruct failed.
  - apply keeps_bind; [unfold add_failed; kept|intros _].
    apply keeps_bind; [apply remove_manga_folder_kept|intros _].
    apply keeps_bind; [unfold reinit_browser; kept|intros _]. apply keeps_ret.
  - apply keeps_bind.
    + destruct (pack self) eqn:Hpack; [|apply keeps_ret].
      apply keeps_bind;
        [intros s [Hu Hz]; unfold_M; split; [done|intros; congruence]|intros _].
      apply keeps_bind.
      { apply keeps_for_in. intros p acc _ s [Hu Hz]. unfold zip_write.
        destruct (dirs s !! name ≫= _); split; first [done|intros; congruence]. }
      intros _. apply keeps_bind; [kept|intros []; [|apply keeps_ret]].
      apply remove_manga_folder_kept.
    + intros _. apply keeps_bind; [unfold add_done; kept|intros _].
      destruct (max_ self); [case_bool_decide|]; apply keeps_ret.
Qed.

Lemma load_url_kept u z url k :
  keeps (files_kept self u z) (load_url self web url k).
Proof.
  unfold load_url. destruct (Str.blank url); [apply keeps_ret|]. cbv zeta.
  apply keeps_bind; [kept|intros _].
  apply keeps_bind; [apply waiting_loading_page_kept|intros _].
  apply keeps_bind; [kept|intros source].
  apply keeps_bind.
  { apply keeps_attempt. unfold get_page_count.
    destruct (search_page_count source); [apply keeps_ret|apply keeps_raise]. }
  intros [page_count|].
  - apply keeps_bind; [kept|intros there].
    apply keeps_bind; [destruct there; [apply keeps_ret|kept]|intros _].
    apply keeps_bind; [kept|intros _].
    apply keeps_bind.
    { apply keeps_for_in. intros p d _. apply fetch_page_kept. }
    intros _. unfold validate_item.
    apply keeps_bind; [apply keeps_pure, check_pages_pure|intros failed].
    apply record_item_kept.
  - apply keeps_bind; [unfold add_failed; kept|intros _]. apply keeps_ret.
Qed.

Lemma load_all_kept u z urls : keeps (files_kept self u z) (load_all self web urls).
Proof.
  unfold load_all. apply keeps_bind; [kept|intros _].
  apply keeps_for_in_break. intros url k _. apply load_url_kept.
Qed.

(** X11: [load_all] never writes the requested list: however a run
    over whatever queue ends, [urls_file] reads as it did before. *)
Theorem load_all_keeps_requested_list (urls : list string) (s : state) :
  urls_txt (final (load_all self web urls s)) = urls_txt s.
Proof.
  apply (keeps_final (files_kept self (urls_txt s) (zips s)) _ s (load_all_kept _ _ urls)).
  by split.
Qed.

(** X12: with packaging off, [load_all] makes, changes and removes no
    archive, however the run ends. *)
Theorem load_all_packs_only_on_request (urls : list string) (s : state) :
  pack self = false →
  zips (final (load_all self web urls s)) = zips s.
Proof.
  intros Hpack.
  by apply (keeps_final (files_kept self (urls_txt s) (zips s)) _ s
              (load_all_kept _ _ urls)).
Qed.

(** *** The item cap *)

(** The main loop under a cap [m], from a count [k] of completed items
    at which the loop is still running. *)
Lemma capped_loop (m : Z) urls k s :
  max_ self = Some m →
  (k = 0 ∨ k < m)%Z →
  ∃ done_new,
    done_txt (final (for_in_break urls (load_url self web) k s)) =
      done_txt s +:+ lines done_new ∧
    Forall (λ id, ∃ u, u ∈ urls ∧ id = sanitize_url u) done_new ∧
    match for_in_break urls (load_url self web) k s with
    | Ret (Break, kr) _ =>
        kr = (k + Z.of_nat (length done_new))%Z ∧ (m ≤ kr)%Z ∧
        (kr - 1 = 0 ∨ kr - 1 < m)%Z ∧ (k < kr)%Z
    | Ret (Continue, kr) _ =>
        kr = (k + Z.of_nat (length done_new))%Z ∧ (kr = 0 ∨ kr < m)%Z
    | Raise _ _ =>
        (k + Z.of_nat (length done_new) = 0 ∨ k + Z.of_nat (length done_new) < m)%Z
    end.
Proof.
  intros Hm. revert k s. induction urls as [|url urls IH]; intros k s Hk.
  { exists []. simpl. rewrite app_empty_r. split_and!; [done..|lia|lia]. }
  assert (∀ dn, Forall (λ id, ∃ u, u ∈ urls ∧ id = sanitize_url u) dn →
                Forall (λ id, ∃ u, u ∈ url :: urls ∧ id = sanitize_url u) dn) as Hmono.
  { intros dn Hdn. eapply Forall_impl; [exact Hdn|].
    intros id (u & Hu & ->). exists u. split; [by right|done]. }
  simpl for_in_break. rewrite run_bind.
  destruct (load_url_cases url k s)
    as [[_ ->]|[_ [(e & s' & -> & Hl)|
         [(s' & -> & Hl)|[(s' & -> & Hl)|(e & s' & -> & _ & Hl)]]]]].
  - simpl. destruct (IH k s Hk) as (dn & Hdn & Hin & Hr). exists dn. auto.
  - exists []. simpl. rewrite app_empty_r. injection Hl as -> _.
    split_and!; [done..|lia].
  - injection Hl as Hd _. unfold cap_reached. rewrite Hm. case_bool_decide as Hcap.
    + exists [sanitize_url url]. simpl. rewrite Hd, app_empty_r.
      split_and!; [done| |lia..].
      apply Forall_singleton. exists url. split; [left|done].
    + simpl. destruct (IH (k + 1)%Z s' ltac:(lia)) as (dn & Hdn & Hin & Hr).
      exists (sanitize_url url :: dn). rewrite Hdn, Hd.
      split_and!; [by rewrite lines_cons, !app_assoc| |].
      { apply Forall_cons. split; [exists url; split; [left|done]|by apply Hmono]. }
      destruct (for_in_break _ _ _ _) as [[[] kr] s2|e s2]; simpl length; lia.
  - injection Hl as Hd _. simpl. destruct (IH k s' Hk) as (dn & Hdn & Hin & Hr).
    exists dn. rewrite Hdn, Hd. auto.
  - exists []. simpl. rewrite app_empty_r.
    split_and!; [|done|lia]. by destruct Hl as [Hl|Hl]; injection Hl as ->.
Qed.

(** X13: under a cap [m], the run stops once the completed items of
    this run, counted from the first, reach [m]; items that failed are
    not counted. The count is compared only after an item was completed:
    a cap of one, of zero or below zero ends the run after the first
    completed item. So for a queue of single lines and a completed file
    that is empty or ends with a line feed, the completed file reads
    after the run as before, followed by at most [max 1 m] lines, and by
    exactly that many when the run stopped at the cap. *)
Theorem item_cap_counts_completed_items (urls : list string) (s : state) (m : Z) :
  max_ self = Some m →
  Forall (λ u, plain_line u = true) urls →
  terminated (done_txt s) = true →
  let r := load_all self web urls s in
  ∃ done_new,
    read_list (done_txt (final r)) = read_list (done_txt s) ++ done_new ∧
    (Z.of_nat (length done_new) ≤ Z.max 1 m)%Z ∧
    match r with
    | Ret (Break, k) _ => k = Z.max 1 m ∧ Z.of_nat (length done_new) = k
    | Ret (Continue, k) _ =>
        Z.of_nat (length done_new) = k ∧ (k = 0 ∨ k < m)%Z
    | Raise _ _ => True
    end.
Proof.
  intros Hm Hplain Hd. simpl.
  change (load_all self web urls s)
    with (for_in_break urls (load_url self web) 0%Z (set_window (default_display self) s)).
  destruct (capped_loop m urls 0 (set_window (default_display self) s) Hm ltac:(lia))
    as (dn & Hdn & Hin & Hr).
  assert (Forall (λ id, Str.one_line id = true) dn) as Hone.
  { eapply Forall_impl; [exact Hin|]. intros id (u & Hu & ->).
    apply sanitize_url_one_line, plain_line_one_line.
    rewrite Forall_forall in Hplain. by apply Hplain. }
  destruct (read_list_lines (done_txt s) dn Hd Hone) as [Hrd _].
  exists dn. rewrite Hdn. split; [exact Hrd|].
  destruct (for_in_break _ _ _ _) as [[[] kr] s2|e s2]; lia.
Qed.

(** *** An item of no pages *)


(** *** An item fetched from scratch *)

Lemma resized_frame v s :
  dirs (resized v s) = dirs s ∧ history (resized v s) = history s ∧
  slept (resized v s) = slept s ∧ lists (resized v s) = lists s ∧
  shown (resized v s) = shown s.
Proof. unfold resized. by destruct (resize_target v (shown s)). Qed.

(** One page that is not on disk, fetched from a reader page that gets
    ready and has a layer to remove. *)
Lemma fetch_page_fresh url folder q (d : bool) s :
  is_Some (dirs s !! folder) →
  page_file s folder q = None →
  ready true (web (length (history s)) (reader_url url q)) = true →
  0 < layers (web (length (history s)) (reader_url url q)) →
  ∃ s1,
    fetch_page self web url folder q d s = Ret false s1 ∧
    history s1 = history s ++ [reader_url url q] ∧
    slept s1 = slept s + (if d then 3 else 1) ∧
    is_Some (page_file s1 folder q) ∧
    (∀ p, p ≠ q → page_file s1 folder p = page_file s folder p) ∧
    lists s1 = lists s ∧ is_Some (dirs s1 !! folder).
Proof.
  intros [files Hdir] Hq Hr Hl. rewrite fetch_page_fetch by done.
  rewrite decide_True by done. eexists. split; [done|].
  set (s0 := set_in_frame true _).
  destruct (resized_frame (viewport self) s0) as (Hd & Hh & Hs & Hlists & _).
  unfold write_screenshot, page_file. simpl. rewrite Hd. simpl. rewrite Hdir. simpl.
  rewrite Hh, Hs, !lookup_insert_eq. simpl. rewrite lookup_insert_eq.
  split_and!; [done..| |exact Hlists|done].
  intros p Hp. rewrite lookup_insert_ne; [done|]. by intros ?%png_inj.
Qed.

Lemma fetch_loop_fresh url folder len : ∀ a (d : bool) s,
  is_Some (dirs s !! folder) →
  (∀ p, a ≤ p < a + len → page_file s folder p = None) →
  (∀ p, a ≤ p < a + len →
     ready true (web (length (history s) + (p - a)) (reader_url url p)) = true ∧
     0 < layers (web (length (history s) + (p - a)) (reader_url url p))) →
  ∃ d' s',
    for_in (seq a len) (fetch_page self web url folder) d s = Ret d' s' ∧
    history s' = history s ++ (reader_url url <$> seq a len) ∧
    slept s' =
      slept s + (if decide (len = 0) then 0 else (if d then 3 else 1) + (len - 1)) ∧
    (∀ p, a ≤ p < a + len → is_Some (page_file s' folder p)) ∧
    (∀ p, ¬ a ≤ p < a + len → page_file s' folder p = page_file s folder p) ∧
    lists s' = lists s.
Proof.
  induction len as [|len IH]; intros a d s Hdir Hnone Hweb.
  { exists d, s. simpl. rewrite app_nil_r, Nat.add_0_r. split_and!; [done..|lia|done|done]. }
  simpl seq. rewrite for_in_cons, run_bind.
  destruct (Hweb a ltac:(lia)) as [Hr Hl]. rewrite Nat.sub_diag, Nat.add_0_r in Hr, Hl.
  destruct (fetch_page_fresh url folder a d s Hdir (Hnone a ltac:(lia)) Hr Hl)
    as (s1 & -> & Hh1 & Hs1 & Hq1 & Hp1 & Hl1 & Hd1).
  destruct (IH (S a) false s1 Hd1) as (d' & s' & -> & Hh' & Hs' & Hq' & Hout' & Hl').
  { intros p Hp. rewrite Hp1 by lia. apply Hnone. lia. }
  { intros p Hp. rewrite Hh1, length_app. simpl.
    replace (length (history s) + 1 + (p - S a)) with (length (history s) + (p - a))
      by lia.
    apply Hweb. lia. }
  exists d', s'. split; [done|]. split_and!.
  - rewrite Hh', Hh1, fmap_cons, <- (assoc (++)). done.
  - rewrite Hs', Hs1. rewrite (decide_False (P := S len = 0)) by lia.
    case_decide; destruct d; lia.
  - intros p Hp. destruct (decide (p = a)) as [->|Hne].
    + rewrite Hout' by lia. done.
    + apply Hq'. lia.
  - intros p Hp. rewrite Hout', Hp1 by lia. done.
  - by rewrite Hl', Hl1.
Qed.

(** X15: an item none of whose pages is on disk, every reader page
    getting ready with a layer to remove, is fetched page by page: the
    reader urls of the pages [1..n] are visited in this order, once
    each and nothing else; the program sleeps three units of [wait]
    before the first page and one before every other; afterwards every
    page has its file, and the lists are as they were. *)
Theorem fresh_item_is_fetched_in_order (url folder : string) (n : nat) (s : state) :
  is_Some (dirs s !! folder) →
  (∀ p, 1 ≤ p ≤ n → page_file s folder p = None) →
  (∀ p, 1 ≤ p ≤ n →
     ready true (web (length (history s) + (p - 1)) (reader_url url p)) = true ∧
     0 < layers (web (length (history s) + (p - 1)) (reader_url url p))) →
  ∃ d s',
    fetch_pages self web url folder n s = Ret d s' ∧
    history s' = history s ++ (reader_url url <$> seq 1 n) ∧
    slept s' = slept s + (if decide (n = 0) then 0 else n + 2) ∧
    (∀ p, 1 ≤ p ≤ n → is_Some (page_file s' folder p)) ∧
    lists s' = lists s.
Proof.
  intros Hdir Hnone Hweb. unfold fetch_pages.
  destruct (fetch_loop_fresh url folder n 1 true s Hdir)
    as (d & s' & Hrun & Hh & Hs & Hq & _ & Hl).
  { intros p Hp. apply Hnone. lia. }
  { intros p Hp. apply Hweb. lia. }
  exists d, s'. split_and!; [done..| | |done].
  - rewrite Hs. case_decide; lia.
  - intros p Hp. apply Hq. lia.
Qed.

(** *** The size a page is captured at *)

(** X16: a page whose scripts do not fault is captured at the size of
    its content canvas, the canvas two below the number of layers: the
    window is set to the size of that canvas, or in viewport mode to
    that size plus the window decoration; the top layer is removed, once;
    the page file holds the screenshot taken at that window size;
    nothing is printed. *)
Theorem page_is_captured_at_canvas_size (url folder : string) (page_num : nat)
    (delay : bool) (s : state) (files : gmap string size) (c dec : size) :
  let p := web (length (history s)) (reader_url url page_num) in
  dirs s !! folder = Some files →
  files !! png page_num = None →
  ready true p = true →
  0 < layers p →
  canvas_at p (Z.of_nat (layers p) - 2) = Some c →
  (viewport self = true → decoration p = Some dec) →
  ∃ s',
    fetch_page self web url folder page_num delay s = Ret false s' ∧
    window s' = (if viewport self then (dec.1 + c.1, dec.2 + c.2)%Z else c) ∧
    page_file s' folder page_num = Some (shot p (window s')) ∧
    layers (shown s') = layers p - 1 ∧
    stdout s' = stdout s ∧
    history s' = history s ++ [reader_url url page_num].
Proof.
  intros p Hdir Hfile Hready Hlayers Hcanvas Hdec.
  assert (resize_target (viewport self) p =
            Some (if viewport self then (dec.1 + c.1, dec.2 + c.2)%Z else c)) as Htarget.
  { unfold resize_target. rewrite Hcanvas. simpl.
    destruct (viewport self); [|done]. by rewrite Hdec. }
  rewrite fetch_page_fetch; [|by unfold page_file; rewrite Hdir|done].
  fold p. rewrite decide_True by done. eexists. split; [done|].
  unfold resized. simpl. rewrite Htarget. unfold write_screenshot, page_file. simpl.
  rewrite Hdir. simpl. rewrite lookup_insert_eq. simpl. by rewrite lookup_insert_eq.
Qed.

(** *** From one run to the next *)

Lemma one_line_remove_newlines l : Str.one_line (Str.remove_newlines l) = true.
Proof. induction l as [|c l IH]; [done|]. simpl. case_decide; [done|]. simpl. by case_decide. Qed.

(** No queued identifier has a line feed in it. *)
Lemma get_urls_list_one_line u d f x :
  x ∈ get_urls_list u d f → Str.one_line x = true.
Proof.
  intros [Hx _]%elem_of_get_urls_list.
  apply list_elem_of_fmap in Hx as (y & -> & Hy). apply sanitize_url_one_line.
  unfold read_list in Hy. apply list_elem_of_fmap in Hy as (l & -> & _).
  apply one_line_remove_newlines.
Qed.

(** X17: a run makes the next one resume where it stopped. When the
    completed and the failed file are empty or end with a line feed,
    then after [load_all] has run over the queue built from the three
    files, however it ended, the two files end with a line feed again,
    they read as before followed by what the run recorded, and the queue
    built next holds exactly the identifiers of the first queue that the
    run did not record. What the run records are canonical forms of
    queued identifiers: an identifier that canonicalization still
    changes is recorded in another form and is queued again. *)
Theorem next_queue_drops_recorded (s : state) :
  terminated (done_txt s) = true → terminated (fail_txt s) = true →
  let queue := initial_queue s in
  let s' := final (load_all self web queue s) in
  ∃ done_new fail_new,
    read_list (done_txt s') = read_list (done_txt s) ++ done_new ∧
    read_list (fail_txt s') = read_list (fail_txt s) ++ fail_new ∧
    (∀ x, x ∈ done_new ++ fail_new → x ∈ sanitize_url <$> queue) ∧
    (∀ x, x ∈ initial_queue s' ↔ x ∈ queue ∧ x ∉ done_new ∧ x ∉ fail_new) ∧
    terminated (done_txt s') = true ∧ terminated (fail_txt s') = true.
Proof.
  intros Hd Hf queue s'.
  assert (urls_txt s' = urls_txt s) as Hu.
  { apply (keeps_final (files_kept self (urls_txt s) (zips s)) _ s
             (load_all_kept _ _ queue)). by split. }
  destruct (main_loop_lists queue 0 (set_window (default_display self) s))
    as (dn & fn & n & Hl & Hp & _).
  change (for_in_break queue (load_url self web) 0%Z
            (set_window (default_display self) s))
    with (load_all self web queue s) in Hl.
  fold s' in Hl. simpl in Hl. injection Hl as Hdone Hfail.
  assert (∀ x, x ∈ dn ++ fn → x ∈ sanitize_url <$> queue) as Hin.
  { intros x. rewrite Hp. intros (q & -> & Hq)%list_elem_of_fmap.
    apply list_elem_of_fmap. exists q. split; [done|].
    apply (subseteq_take n), list_elem_of_filter in Hq. tauto. }
  assert (Forall (λ id, Str.one_line id = true) (dn ++ fn)) as Hone.
  { apply Forall_forall. intros x (q & -> & Hq)%Hin%list_elem_of_fmap.
    apply sanitize_url_one_line. by eapply get_urls_list_one_line. }
  apply Forall_app in Hone as [Hdn Hfn].
  destruct (read_list_lines (done_txt s) dn Hd Hdn) as [Hrd Htd].
  destruct (read_list_lines (fail_txt s) fn Hf Hfn) as [Hrf Htf].
  exists dn, fn. rewrite Hdone, Hfail. split_and!; [done..| |done|done].
  intros x. unfold initial_queue, queue, initial_queue.
  rewrite !elem_of_get_urls_list, Hu, Hdone, Hfail, Hrd, Hrf, !elem_of_app. tauto.
Qed.

(** *** Expanding a collection *)

Context (bs : string → soup).

Lemma page_links_refs (hrefs : list string) :
  (λ href, int_of_digits (default "" (search_page_link href)))
    <$> filter (λ href, is_Some (search_page_link href)) hrefs =
  omap (λ href, int_of_digits <$> search_page_link href) hrefs.
Proof.
  induction hrefs as [|href hrefs IH]; [done|].
  rewrite filter_cons. simpl omap.
  destruct (decide (is_Some (search_page_link href))) as [[digits Hd]|Hn].
  - by rewrite fmap_cons, Hd, IH.
  - apply eq_None_not_Some in Hn. by rewrite Hn.
Qed.

(** The page count of a listing is the largest page number its links
    refer to, and 1 when no link refers to a page. *)
Lemma get_page_count_in_collection_refs source :
  get_page_count_in_collection bs source =
    match page_refs (bs source) with
    | [] => 1
    | refs => max_list refs
    end.
Proof.
  unfold get_page_count_in_collection, page_refs.
  rewrite page_links_refs.
  rewrite <- (length_fmap (λ href, int_of_digits (default "" (search_page_link href)))),
    page_links_refs.
  destruct (omap _ _); [done|]. by rewrite bool_decide_eq_true_2 by (simpl; lia).
Qed.

Lemma elem_of_page_refs sp r :
  r ∈ page_refs sp ↔
    ∃ href digits, href ∈ a_href sp ∧ search_page_link href = Some digits ∧
                   r = int_of_digits digits.
Proof.
  unfold page_refs. rewrite list_elem_of_omap. split.
  - intros (href & Hin & Hr). destruct (search_page_link href) as [digits|] eqn:Hd; [|done].
    injection Hr as <-. by exists href, digits.
  - intros (href & digits & Hin & Hd & ->). exists href. by rewrite Hd.
Qed.

(** X18: the number of listing pages [__get_page_count_in_collection]
    returns is 1 when no link of the page has [/page/] followed by a
    digit in its [href]; otherwise it is the largest number that follows
    the first [/page/] of such a link: no link refers to a higher page,
    and one link refers to that page. *)
Theorem collection_page_count_is_largest_link (page_source : string) :
  let n := get_page_count_in_collection bs page_source in
  let hrefs := a_href (bs page_source) in
  ((∀ href, href ∈ hrefs → search_page_link href = None) → n = 1) ∧
  (∀ href digits, href ∈ hrefs → search_page_link href = Some digits →
     int_of_digits digits ≤ n ∧
     ∃ href' digits', href' ∈ hrefs ∧ search_page_link href' = Some digits' ∧
                      n = int_of_digits digits').
Proof.
  simpl. rewrite get_page_count_in_collection_refs. split.
  - intros Hnone. destruct (page_refs (bs page_source)) as [|r refs] eqn:Hrefs; [done|].
    assert (r ∈ page_refs (bs page_source)) as Hr by (rewrite Hrefs; left).
    apply elem_of_page_refs in Hr as (href & digits & Hin & Hd & _).
    rewrite (Hnone href Hin) in Hd. done.
  - intros href digits Hin Hd.
    assert (int_of_digits digits ∈ page_refs (bs page_source)) as Hr
      by (apply elem_of_page_refs; by exists href, digits).
    destruct (page_refs (bs page_source)) as [|r refs] eqn:Hrefs;
      [by apply elem_of_nil in Hr|].
    split; [by apply max_list_elem_of_le|].
    assert (max_list (r :: refs) ∈ r :: refs) as Hmax by by apply max_list_elem_of.
    rewrite <- Hrefs in Hmax.
    apply elem_of_page_refs in Hmax as (href' & digits' & ? & ? & Hn).
    exists href', digits'. split_and!; [done..|]. by rewrite <- Hrefs.
Qed.

(** What the loop of [load_urls_from_collection] does for one listing
    page. *)
Local Notation listing_body collection_url :=
  (λ (page_num : nat) (_ : ()),
     (if bool_decide (page_num ≠ 1) then
        browser_get web (collection_url +:+ "/page/" +:+ pretty page_num);;
        waiting_loading_page false false
      else mret ());;
     source ← gets (λ s, page_source (shown s));
     for_in (col_comic (bs source))
       (λ div (_ : ()),
          match div with
          | Some href => write_url (BASE_URL +:+ href +:+ nl)
          | None => raise TypeError
          end) ()).

(** The loop over the entries of a listing page writes one line each. *)
Lemma write_loop hrefs s :
  ∃ s',
    for_in (Some <$> hrefs)
      (λ div (_ : ()),
         match div with
         | Some href => write_url (BASE_URL +:+ href +:+ nl)
         | None => raise TypeError
         end) () s = Ret () s' ∧
    urls_txt s' = urls_txt s +:+ lines ((λ href, BASE_URL +:+ href) <$> hrefs) ∧
    history s' = history s ∧ shown s' = shown s ∧ lists s' = lists s ∧
    dirs s' = dirs s ∧ zips s' = zips s.
Proof.
  revert s. induction hrefs as [|href hrefs IH]; intros s.
  { exists s. simpl. by rewrite app_empty_r. }
  rewrite !fmap_cons, for_in_cons, run_bind.
  unfold write_url at 1, modify at 1. cbv beta iota.
  destruct (IH (set_urls_txt (λ t, t +:+ BASE_URL +:+ href +:+ nl) s))
    as (s' & -> & Hu & Hrest).
  exists s'. split; [done|]. split; [|done].
  rewrite Hu. simpl. by rewrite ?lines_cons, !app_assoc.
Qed.

(** It stops at the first entry without a link. *)
Lemma write_loop_abort hrefs rest s :
  ∃ s',
    for_in ((Some <$> hrefs) ++ None :: rest)
      (λ div (_ : ()),
         match div with
         | Some href => write_url (BASE_URL +:+ href +:+ nl)
         | None => raise TypeError
         end) () s = Raise TypeError s' ∧
    urls_txt s' = urls_txt s +:+ lines ((λ href, BASE_URL +:+ href) <$> hrefs) ∧
    history s' = history s ∧ lists s' = lists s ∧
    dirs s' = dirs s ∧ zips s' = zips s.
Proof.
  revert s. induction hrefs as [|href hrefs IH]; intros s.
  { exists s. simpl. by rewrite app_empty_r. }
  rewrite !fmap_cons, <- app_comm_cons, for_in_cons, run_bind.
  unfold write_url at 1, modify at 1. cbv beta iota.
  destruct (IH (set_urls_txt (λ t, t +:+ BASE_URL +:+ href +:+ nl) s))
    as (s' & -> & Hu & Hrest).
  exists s'. split; [done|]. split; [|done].
  rewrite Hu. simpl. by rewrite ?lines_cons, !app_assoc.
Qed.

(** One listing page of the loop of [load_urls_from_collection]. *)
Lemma listing_page_written collection_url page_num items s :
  let p := if decide (page_num = 1) then shown s
           else web (length (history s)) (listing_url collection_url page_num) in
  ready false p = true →
  col_comic (bs (page_source p)) = Some <$> items →
  ∃ s',
    listing_body collection_url page_num () s = Ret () s' ∧
    urls_txt s' = urls_txt s +:+ lines ((λ href, BASE_URL +:+ href) <$> items) ∧
    history s' =
      history s ++
        (if decide (page_num = 1) then [] else [listing_url collection_url page_num]) ∧
    lists s' = lists s ∧ dirs s' = dirs s ∧ zips s' = zips s.
Proof.
  intros p Hready Hitems. cbv beta. rewrite run_bind.
  destruct (decide (page_num = 1)) as [->|Hne].
  - rewrite bool_decide_eq_false_2 by (by intros []).
    unfold mret at 1, M_ret at 1. rewrite run_bind. unfold gets at 1.
    fold p. rewrite Hitems.
    destruct (write_loop items s) as (s' & -> & Hu & Hh & _ & Hl & Hd & Hz).
    exists s'. rewrite Hh, app_nil_r. done.
  - rewrite bool_decide_eq_true_2 by done. rewrite run_bind.
    unfold browser_get at 1, modify at 1. fold (listing_url collection_url page_num).
    fold p.
    rewrite waiting_loading_page_ready by done. rewrite run_bind. unfold gets at 1.
    simpl shown. rewrite Hitems.
    cbn [andb].
    destruct (write_loop items
                (set_in_frame false (add_slept 1
                   (navigate (listing_url collection_url page_num) p s))))
      as (s' & -> & Hu & Hh & _ & Hl & Hd & Hz).
    exists s'. rewrite Hh. done.
Qed.

(** The listing pages from the second on. *)
Lemma listing_loop collection_url (items : nat → list string) len : ∀ a s,
  2 ≤ a →
  (∀ j, a ≤ j < a + len →
     let p := web (length (history s) + (j - a)) (listing_url collection_url j) in
     ready false p = true ∧ col_comic (bs (page_source p)) = Some <$> items j) →
  ∃ s',
    for_in (seq a len) (listing_body collection_url) () s = Ret () s' ∧
    urls_txt s' =
      urls_txt s +:+
        lines ((λ href, BASE_URL +:+ href) <$> mjoin (items <$> seq a len)) ∧
    history s' = history s ++ (listing_url collection_url <$> seq a len) ∧
    lists s' = lists s ∧ dirs s' = dirs s ∧ zips s' = zips s.
Proof.
  induction len as [|len IH]; intros a s Ha Hpages.
  { exists s. simpl. by rewrite app_empty_r, app_nil_r. }
  simpl seq. rewrite for_in_cons, run_bind.
  destruct (Hpages a ltac:(lia)) as [Hr Hc]. rewrite Nat.sub_diag, Nat.add_0_r in Hr, Hc.
  destruct (listing_page_written collection_url a (items a) s)
    as (s1 & -> & Hu1 & Hh1 & Hl1 & Hd1 & Hz1).
  { by rewrite decide_False by lia. }
  { by rewrite decide_False by lia. }
  rewrite decide_False in Hh1 by lia.
  destruct (IH (S a) s1 ltac:(lia)) as (s' & -> & Hu' & Hh' & Hl' & Hd' & Hz').
  { intros j Hj. rewrite Hh1, length_app. simpl.
    replace (length (history s) + 1 + (j - S a)) with (length (history s) + (j - a))
      by lia.
    apply Hpages. lia. }
  exists s'. split; [done|]. split_and!.
  - rewrite Hu', Hu1, fmap_cons. simpl mjoin.
    by rewrite fmap_app, lines_app, !app_assoc.
  - by rewrite Hh', Hh1, fmap_cons, <- (assoc (++)).
  - by rewrite Hl', Hl1.
  - by rewrite Hd', Hd1.
  - by rewrite Hz', Hz1.
Qed.

(** X19: collection expansion appends to the requested list, for the
    listing pages [1..n] in this order, [n] the page count read from the
    first page, one line for every item entry of the page, in the order
    of the page: the link of the entry prefixed with the base url.
    Nothing is left out or compared: an item listed twice is appended
    twice. The first page is the collection url itself; the pages from
    the second on are visited once each, at their [/page/] urls. *)
Theorem collection_expansion_appends_listing (collection_url : string) (s : state)
    (items : nat → list string) :
  let i := length (history s) in
  let page := λ j, if decide (j = 1) then web i collection_url
                   else web (i + j - 1) (listing_url collection_url j) in
  let n := get_page_count_in_collection bs (page_source (page 1)) in
  ready false (page 1) = true →
  (∀ j, 1 ≤ j ≤ n →
     ready false (page j) = true ∧
     col_comic (bs (page_source (page j))) = Some <$> items j) →
  ∃ s',
    load_urls_from_collection web bs collection_url s = Ret () s' ∧
    urls_txt s' =
      urls_txt s +:+
        lines ((λ href, BASE_URL +:+ href) <$> mjoin (items <$> seq 1 n)) ∧
    history s' =
      history s ++ collection_url :: (listing_url collection_url <$> seq 2 (n - 1)) ∧
    lists s' = lists s ∧ dirs s' = dirs s ∧ zips s' = zips s.
Proof.
  intros i page n Hr1 Hpages.
  unfold load_urls_from_collection. rewrite run_bind.
  unfold browser_get at 1, modify at 1. fold i.
  change (web i collection_url) with (page 1).
  rewrite run_bind, waiting_loading_page_ready by done.
  rewrite run_bind. unfold gets at 1. simpl shown. fold n.
  set (s1 := set_in_frame false _).
  assert (history s1 = history s ++ [collection_url]) as Hh1 by done.
  destruct n as [|m] eqn:Hn.
  { exists s1. split; [done|]. simpl. rewrite app_empty_r. done. }
  simpl seq. rewrite for_in_cons, run_bind.
  destruct (Hpages 1 ltac:(lia)) as [_ Hc1].
  destruct (listing_page_written collection_url 1 (items 1) s1)
    as (s2 & Hrun2 & Hu2 & Hh2 & Hl2 & Hd2 & Hz2); [done..|].
  rewrite Hrun2. rewrite decide_True, app_nil_r in Hh2 by done.
  destruct (listing_loop collection_url items m 2 s2 ltac:(lia))
    as (s' & -> & Hu' & Hh' & Hl' & Hd' & Hz').
  { intros j Hj. rewrite Hh2, Hh1, length_app. simpl. fold i.
    destruct (Hpages j ltac:(lia)) as [Hr Hc].
    unfold page in Hr, Hc. rewrite decide_False in Hr, Hc by lia.
    replace (i + 1 + (j - 2)) with (i + j - 1) by lia. done. }
  exists s'. split; [done|]. split_and!.
  - rewrite Hu', Hu2, fmap_cons. simpl mjoin.
    by rewrite fmap_app, lines_app, !app_assoc.
  - rewrite Hh', Hh2, Hh1, <- (assoc (++)). simpl. by rewrite Nat.sub_0_r.
  - by rewrite Hl', Hl2.
  - by rewrite Hd', Hd2.
  - by rewrite Hz', Hz2.
Qed.

(** X20: an item entry without an [<a>] ends collection expansion:
    [div.find('a')] is [None], which cannot be subscripted, and the
    [TypeError] is not caught. The lines of the entries before it on
    the page have been appended to the requested list and stay there;
    no further page is visited. *)
Theorem collection_entry_without_link_aborts (collection_url : string) (s : state)
    (before : list string) (rest : list (option string)) :
  let page1 := web (length (history s)) collection_url in
  ready false page1 = true →
  1 ≤ get_page_count_in_collection bs (page_source page1) →
  col_comic (bs (page_source page1)) = (Some <$> before) ++ None :: rest →
  ∃ s',
    load_urls_from_collection web bs collection_url s = Raise TypeError s' ∧
    urls_txt s' =
      urls_txt s +:+ lines ((λ href, BASE_URL +:+ href) <$> before) ∧
    history s' = history s ++ [collection_url] ∧
    lists s' = lists s ∧ dirs s' = dirs s ∧ zips s' = zips s.
Proof.
  intros page1 Hr1 Hn Hc.
  unfold load_urls_from_collection. rewrite run_bind.
  unfold browser_get at 1, modify at 1. fold page1.
  rewrite run_bind, waiting_loading_page_ready by done.
  rewrite run_bind. unfold gets at 1. simpl shown.
  destruct (get_page_count_in_collection bs (page_source page1)) as [|m]; [lia|].
  simpl seq. rewrite for_in_cons, run_bind. cbv beta.
  rewrite run_bind. rewrite bool_decide_eq_false_2 by (by intros []).
  unfold mret at 1, M_ret at 1. rewrite run_bind. unfold gets at 1.
  simpl shown. rewrite Hc.
  set (s1 := set_in_frame false _).
  destruct (write_loop_abort before rest s1) as (s' & -> & Hu & Hh & Hl & Hd & Hz).
  by exists s'.
Qed.

(** X21: collection expansion writes to the requested list only, and
    only at its end: however it ends, what the list held before is still
    there, in front of what was appended, and the completed list, the
    failed list, the item directories and the archives are as they
    were. *)
Theorem collection_expansion_only_appends (collection_url : string) (s : state) :
  let s' := final (load_urls_from_collection web bs collection_url s) in
  (∃ added, urls_txt s' = urls_txt s +:+ added) ∧
  done_txt s' = done_txt s ∧ fail_txt s' = fail_txt s ∧
  dirs s' = dirs s ∧ zips s' = zips s.
Proof.
  set (I := λ s', (∃ added, urls_txt s' = urls_txt s +:+ added) ∧
                  done_txt s' = done_txt s ∧ fail_txt s' = fail_txt s ∧
                  dirs s' = dirs s ∧ zips s' = zips s).
  assert (∀ r d, keeps I (waiting_loading_page r d)) as Hwait.
  { intros r d s1 Hs1. unfold waiting_loading_page.
    destruct r, d; unfold_M; simpl; repeat (case_match; simplify_eq; simpl); exact Hs1. }
  assert (∀ url, keeps I (browser_get web url)) as Hget.
  { intros url s1 Hs1. exact Hs1. }
  apply (keeps_final I); [|unfold I; split_and!; [exists ""; by rewrite app_empty_r|done..]].
  unfold load_urls_from_collection.
  apply keeps_bind; [apply Hget|intros _].
  apply keeps_bind; [apply Hwait|intros _].
  apply keeps_bind; [apply keeps_gets|intros source].
  apply keeps_for_in. intros page_num [] _.
  apply keeps_bind.
  { case_bool_decide; [|apply keeps_ret]. apply keeps_bind; [apply Hget|intros _].
    apply Hwait. }
  intros _. apply keeps_bind; [apply keeps_gets|intros source'].
  apply keeps_for_in. intros [href|] [] _; [|apply keeps_raise].
  intros s1 ([added Hu] & Hrest). split; [|exact Hrest].
  exists (added +:+ BASE_URL +:+ href +:+ nl). simpl. by rewrite Hu, !app_assoc.
Qed.

End FDownloader_facts.

(** ** The statements at work on the small site *)


Lemma resize_fault_is_not_fatal_witness :
  let web := one_item_site "1" (reader_page 1 []) in
  let p := reader_page 1 [] in
  let r := fetch_page plain_config web "https://site/x" "x" 1 true (state_with_x ∅) in
  (∀ s1, shown s1 = p →
     try_except
       (width ← js_canvas_width (Z.of_nat (layers p) - 2);
        height ← js_canvas_height (Z.of_nat (layers p) - 2);
        if viewport plain_config then set_viewport_size width height
        else set_window_size (width, height))
       JavascriptException (print js_error) s1 =
     Ret () (add_stdout js_error s1)) ∧
  window (final r) = (1440, 2560)%Z ∧
  stdout (final r) = [] ++ [js_error] ∧
  history (final r) = [] ++ [reader_url "https://site/x" 1] ∧
  done_txt (final r) = "" ∧ fail_txt (final r) = "" ∧
  (0 < layers p →
   ∃ s', r = Ret false s' ∧ page_file s' "x" 1 = Some (shot p (1440, 2560)%Z)) ∧
  (layers p = 0 →
   raised r = Some JavascriptException ∧ page_file (final r) "x" 1 = None).
Proof.
  refine (resize_fault_is_not_fatal plain_config
            (one_item_site "1" (reader_page 1 [])) "https://site/x" "x" 1 true
            (state_with_x ∅) ∅ _ _ _ _);
    vm_compute; first [reflexivity | by left].
Defined.

(** C9 as stated fails: with no layer in the frame the fault on the
    canvas is caught and logged, but the script that removes the top
    layer faults next, outside the [try]; the page is not captured and
    the run ends with that exception, the item in neither list. *)
Lemma overlay_fault_is_fatal :
  let web := one_item_site "1" (reader_page 0 []) in
  let r := load_all plain_config web ["https://site/x"] fresh_state in
  raised r = Some JavascriptException ∧
  stdout (final r) = ["Downloading " +:+ String dquote "x" +:+ String dquote " manga.";
                      js_error] ∧
  history (final r) = ["https://site/x"; "https://site/x/read/page/1"] ∧
  page_file (final r) "x" 1 = None ∧
  done_txt (final r) = "" ∧ fail_txt (final r) = "".
Proof. vm_compute. done. Qed.

Lemma two_pages_all : all_pages two_pages 2.
Proof.
  intros p Hp. assert (p = 1 ∨ p = 2) as [-> | ->] by lia; vm_compute; by eexists.
Qed.

Lemma two_pages_only : only_pages two_pages 2.
Proof.
  intros file Hfile. unfold two_pages in Hfile.
  destruct (decide (file = png 1)) as [->|H1]; [exists 1; split; [lia|done]|].
  destruct (decide (file = png 2)) as [->|H2]; [exists 2; split; [lia|done]|].
  rewrite !lookup_insert_ne, lookup_empty in Hfile by done. by destruct Hfile.
Qed.

Lemma validation_outcome_witness :
  ∃ s',
    validate_item plain_config (one_item_site "2" (reader_page 2 []))
      "https://site/x" "x" 2 0 (state_with_x two_pages) = Ret (Continue, 0%Z) s' ∧
    fail_txt s' = "" +:+ "https://site/x" +:+ nl ∧ done_txt s' = "" ∧
    dirs s' = delete "x" {[ "x" := two_pages ]} ∧ zips s' = ∅.
Proof.
  refine (proj2 (proj2 (validation_outcome plain_config
            (one_item_site "2" (reader_page 2 [])) "https://site/x" "x" 2 0
            (state_with_x two_pages) two_pages _ _ two_pages_all)) _ two_pages_only);
    [by repeat split|vm_compute; reflexivity..].
Defined.

(** C1 as stated fails when the item directory holds a file that is no
    page of the item: [remove_manga_folder] removes the page files only
    and [os.rmdir] raises on what is left. After an undersized page the
    directory stays; with packaging on, a valid item is archived but
    never written to the completed list. *)
Lemma stray_file_keeps_directory :
  let r := load_all plain_config (one_item_site "1" (reader_page 2 [(500, 700)%Z]))
             ["https://site/x"] (state_with_x stray_file) in
  let r' := load_all packing_config (one_item_site "1" (reader_page 2 [(1200, 1800)%Z]))
              ["https://site/x"] (state_with_x stray_file) in
  raised r = Some OSError ∧
  fail_txt (final r) = "https://site/x" +:+ nl ∧
  dirs (final r) !! "x" = Some stray_file ∧
  raised r' = Some OSError ∧
  done_txt (final r') = "" ∧ fail_txt (final r') = "" ∧
  zips (final r') !! "x.cbz" = Some [(png 1, (1200, 1800)%Z)] ∧
  dirs (final r') !! "x" = Some stray_file.
Proof. cbv zeta. split_and!; vm_compute; reflexivity. Qed.


(** The resumed item of the witness, run as a whole: page 1 is not
    visited, page 2 is, and the undersized page found on disk makes the
    item fail. *)
Lemma resumed_item_run :
  let r := load_all plain_config (one_item_site "2" (reader_page 2 [(1200, 1800)%Z]))
             ["https://site/x"] resumed_state in
  returned r = Some (Continue, 0%Z) ∧
  history (final r) =
    ["https://site/x"; "https://site/x/read/page/2"; LOGIN_URL] ∧
  fail_txt (final r) = "https://site/x" +:+ nl ∧ done_txt (final r) = "" ∧
  dirs (final r) = ∅.
Proof. cbv zeta. split_and!; vm_compute; reflexivity. Qed.


Lemma each_identifier_recorded_once_witness :
  let r := load_all plain_config two_item_site
             ["https://site/a"; "https://site/b"] fresh_state in
  let entries :=
    filter (λ u, Str.blank u = false) ["https://site/a"; "https://site/b"] in
  ∃ done_new fail_new n,
    read_list (done_txt (final r)) = read_list (done_txt fresh_state) ++ done_new ∧
    read_list (fail_txt (final r)) = read_list (fail_txt fresh_state) ++ fail_new ∧
    done_new ++ fail_new ≡ₚ sanitize_url <$> take n entries ∧
    (NoDup (sanitize_url <$> entries) → NoDup (done_new ++ fail_new)) ∧
    match r with
    | Ret (Continue, _) _ => length entries ≤ n
    | Ret (Break, k) _ => ∃ m, max_ plain_config = Some m ∧ (m ≤ k)%Z
    | Raise _ _ => True
    end.
Proof.
  refine (each_identifier_recorded_once plain_config two_item_site
            ["https://site/a"; "https://site/b"] fresh_state _ _ _).
  - apply (bool_decide_unpack _). vm_compute. exact I.
  - reflexivity.
  - reflexivity.
Defined.

(** The run of that witness: [a] is completed, [b] has failed. *)
Lemma two_item_run :
  let r := load_all plain_config two_item_site
             ["https://site/a"; "https://site/b"] fresh_state in
  returned r = Some (Continue, 1%Z) ∧
  done_txt (final r) = "https://site/a" +:+ nl ∧
  fail_txt (final r) = "https://site/b" +:+ nl.
Proof. cbv zeta. split_and!; vm_compute; reflexivity. Qed.

(** Two entries of one canonical form: the requested lines [x] and
    [x/re/readad] are queued as [x] and [x/read]; the run canonicalizes
    again and records [x] for both. *)
Lemma same_canonical_form_recorded_twice :
  let queue :=
    get_urls_list ("https://site/x" +:+ nl +:+ "https://site/x/re/readad" +:+ nl)
      "" "" in
  let r := load_all plain_config (one_item_site "1" (reader_page 2 [(1200, 1800)%Z]))
             queue fresh_state in
  queue = ["https://site/x"; "https://site/x/read"] ∧
  returned r = Some (Continue, 2%Z) ∧
  read_list (done_txt (final r)) = ["https://site/x"; "https://site/x"] ∧
  fail_txt (final r) = "".
Proof. cbv zeta. split_and!; vm_compute; reflexivity. Qed.

(** C2 as stated fails: when the wait for an index page times out the
    run exits, and the identifier is in neither list though no item cap
    is configured; a blank queue entry is skipped and is in neither list
    after a run that went through the whole queue. *)
Lemma fatal_exit_leaves_identifier_unrecorded :
  let r := load_all plain_config (λ _ _, bare_page false)
             ["https://site/a"] fresh_state in
  let r' := load_all plain_config two_item_site [""] fresh_state in
  max_ plain_config = None ∧
  raised r = Some SystemExit ∧
  done_txt (final r) = "" ∧ fail_txt (final r) = "" ∧
  get_urls_list nl "" "" = [""] ∧
  returned r' = Some (Continue, 0%Z) ∧
  done_txt (final r') = "" ∧ fail_txt (final r') = "".
Proof. cbv zeta. split_and!; vm_compute; reflexivity. Qed.


(** ** The further statements at work *)

Lemma sanitize_url_drops_read_inside_witness :
  sanitize_url ("https://www.fakku.net/hentai" +:+ "/read" +:+ "-me-english") =
    "https://www.fakku.net/hentai" +:+ "-me-english".
Proof.
  refine (sanitize_url_drops_read_inside "https://www.fakku.net/hentai" "-me-english"
            _ _ _); vm_compute; reflexivity.
Defined.

Lemma sanitize_url_needs_page_number_witness :
  sanitize_url ("https://site/x" +:+ "/read/page/") = "https://site/x" +:+ "/page/".
Proof.
  refine (sanitize_url_needs_page_number "https://site/x" _). vm_compute. reflexivity.
Defined.

Lemma recorded_identifier_is_read_back_witness :
  let s1 := final (add_done "https://site/x" fresh_state) in
  let s2 := final (add_failed "https://site/x" fresh_state) in
  read_list (done_txt s1) = read_list (done_txt fresh_state) ++ ["https://site/x"] ∧
  read_list (fail_txt s2) = read_list (fail_txt fresh_state) ++ ["https://site/x"] ∧
  "https://site/x" ∉
    get_urls_list ("https://site/x/read/page/2" +:+ nl) (done_txt s1) (fail_txt s1) ∧
  "https://site/x" ∉
    get_urls_list ("https://site/x/read/page/2" +:+ nl) (done_txt s2) (fail_txt s2) ∧
  terminated (done_txt s1) = true ∧ terminated (fail_txt s2) = true.
Proof.
  refine (recorded_identifier_is_read_back "https://site/x"
            ("https://site/x/read/page/2" +:+ nl) fresh_state _ _ _);
    vm_compute; reflexivity.
Defined.

Lemma get_page_count_reads_marker_witness :
  get_page_count (marker_context +:+ page_marker 24 true +:+ "<p>") fresh_state =
    Ret 24 fresh_state.
Proof.
  refine (get_page_count_reads_marker marker_context "<p>" 24 true fresh_state _).
  intros a b Hab Hb. unfold marker_context in Hab.
  do 14 (destruct a as [|? a];
         [rewrite app_empty_l in Hab; subst b; first [done | vm_compute; reflexivity]|
          rewrite app_cons in Hab; first [discriminate | injection Hab as <- Hab]]).
Defined.

Lemma get_page_count_needs_marker_witness :
  get_page_count "<html></html>" fresh_state = Raise ValueError fresh_state.
Proof.
  refine (get_page_count_needs_marker "<html></html>" fresh_state _).
  vm_compute. reflexivity.
Defined.

Lemma remove_manga_folder_outcomes_witness :
  match dirs (state_with_x two_pages) !! "x" with
  | None =>
      remove_manga_folder "x" 2 (state_with_x two_pages) =
        Raise FileNotFoundError (state_with_x two_pages)
  | Some files =>
      let others := without_pages files (seq 1 2) in
      (∀ file, others !! file =
                 if decide (file ∈ png <$> seq 1 2) then None else files !! file) ∧
      ∃ s',
        remove_manga_folder "x" 2 (state_with_x two_pages) =
          (if decide (others = ∅) then Ret () s' else Raise OSError s') ∧
        dirs s' =
          (if decide (others = ∅) then delete "x" (dirs (state_with_x two_pages))
           else <["x" := others]> (dirs (state_with_x two_pages))) ∧
        zips s' = zips (state_with_x two_pages) ∧
        lists s' = lists (state_with_x two_pages) ∧
        urls_txt s' = urls_txt (state_with_x two_pages) ∧
        history s' = history (state_with_x two_pages)
  end.
Proof.
  refine (remove_manga_folder_outcomes (λ _ _, blank_page) "x" 2
            (state_with_x two_pages) _ _).
  - by repeat split.
  - reflexivity.
Defined.

(** The run of that witness: the two page files and the directory are
    removed. *)
Lemma two_pages_removed :
  let r := remove_manga_folder "x" 2 (state_with_x two_pages) in
  returned r = Some () ∧ dirs (final r) !! "x" = None.
Proof. cbv zeta. split; vm_compute; reflexivity. Qed.

Lemma load_all_packs_only_on_request_witness :
  zips (final (load_all plain_config two_item_site
                 ["https://site/a"; "https://site/b"] fresh_state)) =
    zips fresh_state.
Proof.
  refine (load_all_packs_only_on_request plain_config two_item_site
            ["https://site/a"; "https://site/b"] fresh_state _).
  reflexivity.
Defined.

Lemma item_cap_counts_completed_items_witness :
  let r := load_all (capped_config 0) two_item_site
             ["https://site/a"; "https://site/b"] fresh_state in
  ∃ done_new,
    read_list (done_txt (final r)) = read_list (done_txt fresh_state) ++ done_new ∧
    (Z.of_nat (length done_new) ≤ Z.max 1 0)%Z ∧
    match r with
    | Ret (Break, k) _ => k = Z.max 1 0 ∧ Z.of_nat (length done_new) = k
    | Ret (Continue, k) _ =>
        Z.of_nat (length done_new) = k ∧ (k = 0 ∨ k < 0)%Z
    | Raise _ _ => True
    end.
Proof.
  refine (item_cap_counts_completed_items (capped_config 0) two_item_site
            ["https://site/a"; "https://site/b"] fresh_state 0 _ _ _).
  - reflexivity.
  - apply (bool_decide_unpack _). vm_compute. exact I.
  - reflexivity.
Defined.

(** The run of that witness: the cap of zero lets item [a] complete and
    stops the run before [b]. *)
Lemma capped_run :
  let r := load_all (capped_config 0) two_item_site
             ["https://site/a"; "https://site/b"] fresh_state in
  returned r = Some (Break, 1%Z) ∧
  done_txt (final r) = "https://site/a" +:+ nl ∧ fail_txt (final r) = "".
Proof. cbv zeta. split_and!; vm_compute; reflexivity. Qed.


Lemma fresh_item_is_fetched_in_order_witness :
  let web := one_item_site "2" (reader_page 2 [(1200, 1800)%Z]) in
  ∃ d s',
    fetch_pages plain_config web "https://site/x" "x" 2 (state_with_x ∅) = Ret d s' ∧
    history s' = [] ++ (reader_url "https://site/x" <$> seq 1 2) ∧
    slept s' = 0 + (if decide (2 = 0) then 0 else 2 + 2) ∧
    (∀ p, 1 ≤ p ≤ 2 → is_Some (page_file s' "x" p)) ∧
    lists s' = lists (state_with_x ∅).
Proof.
  refine (fresh_item_is_fetched_in_order plain_config
            (one_item_site "2" (reader_page 2 [(1200, 1800)%Z]))
            "https://site/x" "x" 2 (state_with_x ∅) _ _ _).
  - vm_compute. by eexists.
  - intros p Hp. unfold page_file, state_with_x. simpl.
    by rewrite lookup_singleton_eq.
  - intros p Hp. assert (p = 1 ∨ p = 2) as [-> | ->] by lia; vm_compute; split; lia.
Defined.

Lemma next_queue_drops_recorded_witness :
  let s := requested_state ("https://site/a" +:+ nl +:+ "https://site/b" +:+ nl) in
  let queue := initial_queue s in
  let s' := final (load_all plain_config two_item_site queue s) in
  ∃ done_new fail_new,
    read_list (done_txt s') = read_list (done_txt s) ++ done_new ∧
    read_list (fail_txt s') = read_list (fail_txt s) ++ fail_new ∧
    (∀ x, x ∈ done_new ++ fail_new → x ∈ sanitize_url <$> queue) ∧
    (∀ x, x ∈ initial_queue s' ↔ x ∈ queue ∧ x ∉ done_new ∧ x ∉ fail_new) ∧
    terminated (done_txt s') = true ∧ terminated (fail_txt s') = true.
Proof.
  refine (next_queue_drops_recorded plain_config two_item_site
            (requested_state ("https://site/a" +:+ nl +:+ "https://site/b" +:+ nl))
            _ _); reflexivity.
Defined.

(** The two runs of that witness: the first completes [a] and fails
    [b]; the queue built next is empty. *)
Lemma resumed_queue :
  let s := requested_state ("https://site/a" +:+ nl +:+ "https://site/b" +:+ nl) in
  let s' := final (load_all plain_config two_item_site (initial_queue s) s) in
  initial_queue s = ["https://site/a"; "https://site/b"] ∧
  read_list (done_txt s') = ["https://site/a"] ∧
  read_list (fail_txt s') = ["https://site/b"] ∧
  initial_queue s' = [].
Proof. cbv zeta. split_and!; vm_compute; reflexivity. Qed.

Lemma collection_expansion_appends_listing_witness :
  ∃ s',
    load_urls_from_collection listing_site (listing_soup true) "https://site/c"
      fresh_state = Ret () s' ∧
    urls_txt s' =
      "" +:+
        lines ((λ href, BASE_URL +:+ href) <$>
                 ["/hentai/a"; "/hentai/b"; "/hentai/c"; "/hentai/d";
                  "/hentai/d"; "/hentai/f"; "/hentai/g"; "/hentai/h";
                  "/hentai/i"; "/hentai/j"; "/hentai/k"; "/hentai/l"]) ∧
    history s' =
      [] ++ ["https://site/c"; "https://site/c/page/2"; "https://site/c/page/3"] ∧
    lists s' = lists fresh_state ∧ dirs s' = ∅ ∧ zips s' = ∅.
Proof.
  refine (collection_expansion_appends_listing listing_site (listing_soup true)
            "https://site/c" fresh_state listing_items _ _).
  - vm_compute. reflexivity.
  - intros j Hj. vm_compute in Hj.
    assert (j = 1 ∨ j = 2 ∨ j = 3) as [-> | [-> | ->]] by lia;
      vm_compute; split; reflexivity.
Defined.

Lemma collection_entry_without_link_aborts_witness :
  ∃ s',
    load_urls_from_collection listing_site broken_soup "https://site/c" fresh_state
      = Raise TypeError s' ∧
    urls_txt s' = "" +:+ lines ((λ href, BASE_URL +:+ href) <$> ["/hentai/a"]) ∧
    history s' = [] ++ ["https://site/c"] ∧
    lists s' = lists fresh_state ∧ dirs s' = ∅ ∧ zips s' = ∅.
Proof.
  refine (collection_entry_without_link_aborts listing_site broken_soup
            "https://site/c" fresh_state ["/hentai/a"] [Some "/hentai/b"] _ _ _).
  - vm_compute. reflexivity.
  - vm_compute. lia.
  - vm_compute. reflexivity.
Defined.

Lemma reader_url_canonicalizes_back_witness :
  sanitize_url (reader_url "https://site/x" 12) = "https://site/x".
Proof.
  refine (reader_url_canonicalizes_back "https://site/x" 12 _). vm_compute. reflexivity.
Defined.

Lemma page_is_captured_at_canvas_size_witness :
  let web := one_item_site "1" framed_reader in
  ∃ s',
    fetch_page viewport_config web "https://site/x" "x" 1 true (state_with_x ∅)
      = Ret false s' ∧
    window s' = (16 + 1200, 88 + 1800)%Z ∧
    page_file s' "x" 1 = Some (shot framed_reader (window s')) ∧
    layers (shown s') = 2 - 1 ∧
    stdout s' = [] ∧
    history s' = [] ++ [reader_url "https://site/x" 1].
Proof.
  refine (page_is_captured_at_canvas_size viewport_config
            (one_item_site "1" framed_reader) "https://site/x" "x" 1 true
            (state_with_x ∅) ∅ (1200, 1800)%Z (16, 88)%Z _ _ _ _ _ _);
    first [vm_compute; reflexivity | vm_compute; lia | intros _; vm_compute; reflexivity].
Defined.
